(** * resu: resumable, checkpointed execution of a callback over a collection

    A shallow embedding of [src/resu/resu.py] (class [Checkpoint]) and the
    properties of its checkpoint/resume engine.

    Python values are a small inductive type, the [Checkpoint] object is a
    record, and every method is a computation in a state-and-exception monad
    over a world made of the object, the file system, the clock, the
    callback's own state and a chronological event log.  The standard
    library routines the module calls ([pickle], [base64], [gzip], [json],
    [pathlib], [py7zr]) are an interface, [PyLib]; what a property needs
    from them is stated as an explicit hypothesis. *)

From Stdlib Require Import ZArith Strings.Ascii Strings.Byte.
From stdpp Require Import base option strings gmap pretty countable sorting list.

Local Open Scope Z_scope.
Set Warnings "-register-all,-clear-no-such-hyp".

(** ** Python values *)

Abbreviation bytes := (list byte).

#[global] Instance byte_eq_dec : EqDecision byte := Byte.byte_eq_dec.

(** The Python values the engine meets here: items, markers and what a
    checkpoint file unpickles to.  A value records type and content, not
    which of its sub-objects are one and the same object in memory:
    [pickle] writes a repeated sub-object as a back-reference, so for a
    container a value stands for the object built from distinct
    sub-objects. *)
Inductive pyobj : Type :=
| PyNone
| PyBool (b : bool)
| PyInt (z : Z)
| PyStr (s : string)
| PyBytes (b : bytes)
| PyList (l : list pyobj).

(** Exceptions the module raises or lets through.  A callback may raise any
    of them. *)
Inductive exn : Type :=
| FileNotFoundError (msg : string)
| TypeError (msg : string)
| ImportError (msg : string)
| NotImplementedError (msg : string)
| BadGzipFile
| Bad7zFile
| UnpicklingError
| JSONDecodeError
| SystemExit (code : Z)
| Exception (payload : pyobj).

Inductive result (A : Type) : Type :=
| Ok (a : A)
| Raise (e : exn).
Arguments Ok {A} a.
Arguments Raise {A} e.

(** The exception of an outcome, if it is one. *)
Definition raised {A : Type} (r : result A) : option exn :=
  match r with
  | Ok _ => None
  | Raise e => Some e
  end.

(** Python's [a == b] on these values: [bool] is a subclass of [int] and
    compares as [0] or [1], so [True == 1]; [str] and [bytes] never compare
    equal; lists compare element by element. *)
Fixpoint py_eq (a b : pyobj) : bool :=
  match a, b with
  | PyNone, PyNone => true
  | PyBool x, PyBool y => Z.b2z x =? Z.b2z y
  | PyBool x, PyInt z => Z.b2z x =? z
  | PyInt z, PyBool x => z =? Z.b2z x
  | PyInt x, PyInt y => x =? y
  | PyStr s, PyStr t => bool_decide (s = t)
  | PyBytes s, PyBytes t => bool_decide (s = t)
  | PyList l, PyList m =>
      (fix go (l m : list pyobj) : bool :=
         match l, m with
         | [], [] => true
         | x :: l', y :: m' => py_eq x y && go l' m'
         | _, _ => false
         end) l m
  | _, _ => false
  end.

(** [type(x)]. *)
Inductive pytype : Type := NoneType | py_bool | py_int | py_str | py_bytes | py_list.

Definition py_type (x : pyobj) : pytype :=
  match x with
  | PyNone => NoneType
  | PyBool _ => py_bool
  | PyInt _ => py_int
  | PyStr _ => py_str
  | PyBytes _ => py_bytes
  | PyList _ => py_list
  end.

(** The values with no sub-object: what [pickle] writes for them is fixed by
    their type and content. *)
Definition scalar (x : pyobj) : bool :=
  match x with
  | PyList _ => false
  | PyNone | PyBool _ | PyInt _ | PyStr _ | PyBytes _ => true
  end.

(** ** The library interface

    [pickle.dumps]/[pickle.loads], [base64.b64encode], the gzip codec behind
    [gzip.open], [json.load], [Path(...).suffix] and the optional [py7zr]
    module ([None] when the import failed, else the members of an archive
    in [readall().values()] order).  Decoders return [None] where the
    library raises.  The time stamp gzip puts in its header is left out: no
    reader looks at it. *)
Class PyLib : Type := {
  pickle_dumps : pyobj -> bytes;
  pickle_loads : bytes -> option pyobj;
  b64encode : bytes -> bytes;
  gzip_compress : bytes -> bytes;
  gzip_decompress : bytes -> option bytes;
  json_load : bytes -> option pyobj;
  path_suffix : string -> string;
  py7zr : option (bytes -> option (list bytes))
}.

(** The documented contracts of the codecs. *)
Definition pickle_roundtrip (lib : PyLib) : Prop :=
  forall x : pyobj, pickle_loads (pickle_dumps x) = Some x.

Definition gzip_roundtrip (lib : PyLib) : Prop :=
  forall b : bytes, gzip_decompress (gzip_compress b) = Some b.

Definition b64_injective (lib : PyLib) : Prop :=
  forall a b : bytes, b64encode a = b64encode b -> a = b.

(** ** The world *)

(** [self.input_data : Optional[Union[Iterable, str]]]. *)
Inductive input : Type :=
| InputNone
| InputPath (path : string)
| InputIter (items : list pyobj).

(** The attributes of a [Checkpoint] object. *)
Record Checkpoint : Type := mkCheckpoint {
  input_data : input;
  ckpt_file : option string;
  progress : list bytes
}.

(** Observable actions, in the order they happen. *)
Inductive event : Type :=
| EvPrint (line : string)
| EvTouch (path : string)
| EvRead (path : string)
| EvWrite (path : string) (snapshot : list bytes)
| EvCall (item : pyobj)
| EvAppend (marker : bytes).

Record world (W : Type) : Type := mkWorld {
  self : Checkpoint;
  fs : gmap string bytes;
  clock : Z;
  sigint_armed : bool;
  user : W;
  events : list event
}.
Arguments mkWorld {W}.
Arguments self {W}.
Arguments fs {W}.
Arguments clock {W}.
Arguments sigint_armed {W}.
Arguments user {W}.
Arguments events {W}.

(** ** The monad: state that survives an exception *)

Definition M (W A : Type) : Type := world W -> result A * world W.

Definition ret {W A} (a : A) : M W A := fun w => (Ok a, w).

Definition bind {W A B} (m : M W A) (k : A -> M W B) : M W B :=
  fun w => match m w with
           | (Ok a, w') => k a w'
           | (Raise e, w') => (Raise e, w')
           end.

Definition raise {W A} (e : exn) : M W A := fun w => (Raise e, w).

Definition get {W} : M W (world W) := fun w => (Ok w, w).

Definition put {W} (w : world W) : M W unit := fun _ => (Ok tt, w).

Declare Scope py_scope.
Delimit Scope py_scope with py.
Notation "x <- m ;; k" := (bind m (fun x => k))
  (at level 100, m at next level, right associativity) : py_scope.
Notation "m ;;; k" := (bind m (fun _ => k))
  (at level 100, right associativity) : py_scope.
Local Open Scope py_scope.

Definition set_self {W} (c : Checkpoint) : M W unit :=
  fun w => (Ok tt, mkWorld c (fs w) (clock w) (sigint_armed w) (user w) (events w)).

Definition set_fs {W} (f : gmap string bytes) : M W unit :=
  fun w => (Ok tt, mkWorld (self w) f (clock w) (sigint_armed w) (user w) (events w)).

Definition set_user {W} (u : W) : M W unit :=
  fun w => (Ok tt, mkWorld (self w) (fs w) (clock w) (sigint_armed w) u (events w)).

Definition arm_sigint {W} : M W unit :=
  fun w => (Ok tt, mkWorld (self w) (fs w) (clock w) true (user w) (events w)).

Definition emit {W} (e : event) : M W unit :=
  fun w => (Ok tt, mkWorld (self w) (fs w) (clock w) (sigint_armed w) (user w)
                     (events w ++ [e])).

Definition print {W} (line : string) : M W unit := emit (EvPrint line).

(** [self.progress.append(m)] *)
Definition progress_append {W} (m : bytes) : M W unit :=
  w <- get ;;
  set_self (mkCheckpoint (input_data (self w)) (ckpt_file (self w))
              (progress (self w) ++ [m])) ;;;
  emit (EvAppend m).

(** ** The [Checkpoint] class *)

(** [str.lower()] on ASCII text. *)
Definition ascii_lower (c : ascii) : ascii :=
  let n := Ascii.N_of_ascii c in
  if ((65 <=? n) && (n <=? 90))%N then Ascii.ascii_of_N (n + 32) else c.

Fixpoint lower (s : string) : string :=
  match s with
  | EmptyString => EmptyString
  | String c s' => String (ascii_lower c) (lower s')
  end.

(** [iter(x)]: what a [for] loop or a comprehension runs through. *)
Definition py_iter (x : pyobj) : option (list pyobj) :=
  match x with
  | PyList l => Some l
  | PyBytes b => Some ((fun c => PyInt (Z.of_N (Byte.to_N c))) <$> b)
  | PyStr s => Some ((fun c => PyStr (String c EmptyString)) <$> String.list_ascii_of_string s)
  | PyNone | PyBool _ | PyInt _ => None
  end.

Definition not_iterable : exn := TypeError "object is not iterable".

(** A falsy [self.ckpt_file] is [None] or the empty string. *)
Definition truthy_path (o : option string) : option string :=
  match o with
  | Some p => if decide (p = "") then None else Some p
  | None => None
  end.

Definition missing_ckpt : exn :=
  FileNotFoundError "The path to the checkpoint file does not exist!".

Section Engine.
Context {lib : PyLib} {W : Type}.

(** [__init__] *)
Definition init (input_data : input) (ckpt_file : option string) : Checkpoint :=
  mkCheckpoint input_data ckpt_file [].

(** [resume] *)
Definition resume (ckpt_file : option string) : M W unit :=
  w <- get ;;
  set_self (mkCheckpoint (input_data (self w)) ckpt_file (progress (self w))).

(** [open(path)] / [gzip.open(path, 'rb')]: the bytes of an existing file. *)
Definition open_file (path : string) : M W bytes :=
  w <- get ;;
  match fs w !! path with
  | Some content => ret content
  | None =>
      raise (FileNotFoundError
               ("[Errno 2] No such file or directory: '" +:+ path +:+ "'"))
  end.

Definition no_filename : exn :=
  TypeError "filename must be a str or bytes object, or a file".

(** [ckpt_io]: a write replaces the file by the gzip of the pickle of
    [self.progress]; a read returns the unpickled content; any other mode
    does nothing and returns [None]. *)
Definition ckpt_io (mode : string) : M W (option pyobj) :=
  w <- get ;;
  if decide (mode = "write") then
    match ckpt_file (self w) with
    | None => raise no_filename
    | Some p =>
        set_fs (<[p := gzip_compress
                          (pickle_dumps (PyList (PyBytes <$> progress (self w))))]>
                  (fs w)) ;;;
        emit (EvWrite p (progress (self w))) ;;;
        ret None
    end
  else if decide (mode = "read") then
    match ckpt_file (self w) with
    | None => raise no_filename
    | Some p =>
        raw <- open_file p ;;
        emit (EvRead p) ;;;
        match gzip_decompress raw with
        | None => raise BadGzipFile
        | Some pickled =>
            match pickle_loads pickled with
            | None => raise UnpicklingError
            | Some data => ret (Some data)
            end
        end
    end
  else ret None.

Definition opt_str (o : option string) : string := default "None" o.

(** [keyboard_interrupt_handler]: flush, then [sys.exit(1)]. *)
Definition keyboard_interrupt_handler (sig : Z) : M W unit :=
  w <- get ;;
  print ("KeyboardInterrupt (id: " +:+ pretty sig +:+ ") has been caught...") ;;;
  print ("Saving progress to checkpoint file `" +:+ opt_str (ckpt_file (self w))
         +:+ "` before terminating the program gracefully...") ;;;
  ckpt_io "write" ;;;
  raise (SystemExit 1).

Definition unsupported_format : exn :=
  NotImplementedError
    ("Input file format is not supported! Pass an iterable object instead."
     +:+ String "010" "Supported file formats for reading directly from a file: "
     +:+ "(.json, .7zip|.7z, .gzip|.gz)").

Definition json_of (raw : bytes) : M W pyobj :=
  match json_load raw with
  | Some v => ret v
  | None => raise JSONDecodeError
  end.

(** [read_data]: the input file, decoded according to its suffix. *)
Definition read_data : M W pyobj :=
  w <- get ;;
  match input_data (self w) with
  | InputPath path =>
      let suffix := lower (path_suffix path) in
      if bool_decide (suffix ∈ [".7z"; ".7zip"]) then
        match py7zr with
        | None => raise (ImportError
                         "py7zr is not installed! Install with: `pip install py7zr`")
        | Some readall =>
            raw <- open_file path ;;
            match readall raw with
            | None => raise Bad7zFile
            | Some [] => ret PyNone
            | Some (j :: _) => json_of j
            end
        end
      else if decide (suffix = ".json") then
        raw <- open_file path ;; json_of raw
      else if bool_decide (suffix ∈ [".gz"; ".gzip"]) then
        raw <- open_file path ;;
        match gzip_decompress raw with
        | None => raise BadGzipFile
        | Some j => json_of j
        end
      else raise unsupported_format
  | InputNone | InputIter _ =>
      raise (TypeError "expected str, bytes or os.PathLike object")
  end.

(** [_encode]: the marker of an item. *)
Definition _encode (x : pyobj) : bytes := b64encode (pickle_dumps x).

(** [Path(p).touch()] *)
Definition touch (p : string) : M W unit :=
  w <- get ;;
  match fs w !! p with
  | Some _ => ret tt
  | None => set_fs (<[p := []]> (fs w))
  end ;;;
  emit (EvTouch p).

(** [for x in data: self.progress.append(self._encode(x))] *)
Fixpoint load_progress (data : list pyobj) : M W unit :=
  match data with
  | [] => ret tt
  | x :: rest => progress_append (_encode x) ;;; load_progress rest
  end.

(** [check_progress]: the items still to process. *)
Definition check_progress : M W (list pyobj) :=
  w <- get ;;
  match truthy_path (ckpt_file (self w)) with
  | None =>
      let p := pretty (clock w) +:+ ".ckpt" in
      set_self (mkCheckpoint (input_data (self w)) (Some p) (progress (self w))) ;;;
      touch p
  | Some p =>
      match fs w !! p with
      | Some _ =>
          loaded <- ckpt_io "read" ;;
          match loaded ≫= py_iter with
          | None => raise not_iterable
          | Some data =>
              load_progress data ;;;
              print ("Resuming from `" +:+ p +:+ "`... Skipped "
                     +:+ pretty (Z.of_nat (length data)) +:+ " completed entries.")
          end
      | None => raise missing_ckpt
      end
  end ;;;
  w <- get ;;
  data <- match input_data (self w) with
          | InputPath _ =>
              d <- read_data ;;
              match py_iter d with
              | Some l => ret l
              | None => raise not_iterable
              end
          | InputIter l => ret l
          | InputNone => raise not_iterable
          end ;;
  w <- get ;;
  ret (filter (fun x => _encode x ∉ progress (self w)) data).

(** [func(item, *args, **kwargs)]: the callback runs on its own state and
    returns a value or raises. *)
Definition call (func : pyobj -> W -> result pyobj * W) (item : pyobj) : M W pyobj :=
  emit (EvCall item) ;;;
  w <- get ;;
  let '(r, u) := func item (user w) in
  set_user u ;;;
  match r with
  | Ok v => ret v
  | Raise e => raise e
  end.

(** The body of [for n, item in enumerate(data)], from index [n] on. *)
Fixpoint record_loop (func : pyobj -> W -> result pyobj * W)
    (data : list pyobj) (n : Z) (checkpoint_every : Z) (results : list pyobj)
    : M W (list pyobj) :=
  match data with
  | [] => ret results
  | item :: rest =>
      r <- call func item ;;
      let results := results ++ [r] in
      progress_append (_encode item) ;;;
      let n := n + 1 in
      if n =? checkpoint_every then
        w <- get ;;
        print ("Saving progress to checkpoint file: `"
               +:+ opt_str (ckpt_file (self w)) +:+ "`...") ;;;
        ckpt_io "write" ;;;
        record_loop func rest n (checkpoint_every + checkpoint_every) results
      else
        record_loop func rest n checkpoint_every results
  end.

(** [record]: [None] when nothing is left to do, else the results. *)
Definition record (func : pyobj -> W -> result pyobj * W)
    (checkpoint_every : Z) (show_progress : bool) : M W (option (list pyobj)) :=
  data <- check_progress ;;
  match data with
  | [] =>
      print "The progress is at 100%. Nothing to update." ;;;
      ret None
  | _ :: _ =>
      arm_sigint ;;;
      results <- record_loop func data 0 checkpoint_every [] ;;
      ckpt_io "write" ;;;
      ret (Some results)
  end.

(** [insert] *)
Definition insert (input_data : input) : M W unit :=
  w <- get ;;
  set_self (mkCheckpoint input_data (ckpt_file (self w)) (progress (self w))).

End Engine.

(** ** Reading a run *)

(** What the log says was called, appended and written. *)
Definition calls (evs : list event) : list pyobj :=
  omap (fun e => match e with EvCall x => Some x | _ => None end) evs.

Definition appends (evs : list event) : list bytes :=
  omap (fun e => match e with EvAppend m => Some m | _ => None end) evs.

Definition writes (evs : list event) : list (string * list bytes) :=
  omap (fun e => match e with EvWrite p s => Some (p, s) | _ => None end) evs.

(** The calls and appends of a log, in order. *)
Definition steps (evs : list event) : list event :=
  omap (fun e => match e with
                 | EvCall _ | EvAppend _ => Some e
                 | _ => None
                 end) evs.

Section Reading.
Context {lib : PyLib} {W : Type}.

(** The bytes a checkpoint write stores for a Done-List. *)
Definition blob (snapshot : list bytes) : bytes :=
  gzip_compress (pickle_dumps (PyList (PyBytes <$> snapshot))).

(** The file system after a sequence of checkpoint writes. *)
Definition apply_writes (ws : list (string * list bytes)) (f : gmap string bytes)
    : gmap string bytes :=
  foldl (fun f '(p, s) => <[p := blob s]> f) f ws.

(** The callback alone, run over the items in order until it raises: the
    values returned, its final state and the exception, if any. *)
Fixpoint run_func (func : pyobj -> W -> result pyobj * W) (data : list pyobj) (u : W)
    : list pyobj * W * option exn :=
  match data with
  | [] => ([], u, None)
  | x :: rest =>
      match func x u with
      | (Ok r, u') =>
          let '(rs, u'', e) := run_func func rest u' in (r :: rs, u'', e)
      | (Raise e, u') => ([], u', Some e)
      end
  end.

(** The counter values at which a loop of [len] iterations, entered with
    counter [n] and threshold [checkpoint_every], finds [n == checkpoint_every]. *)
Fixpoint flush_counts (len : nat) (n checkpoint_every : Z) : list Z :=
  match len with
  | O => []
  | S len' =>
      if n + 1 =? checkpoint_every
      then (n + 1) :: flush_counts len' (n + 1) (checkpoint_every + checkpoint_every)
      else flush_counts len' (n + 1) checkpoint_every
  end.

(** The Done-List after [c] items of [data] on top of [done]. *)
Definition snapshot_at (done : list bytes) (data : list pyobj) (c : Z) : list bytes :=
  done ++ (_encode <$> take (Z.to_nat c) data).

(** The world after one more event. *)
Definition log (w : world W) (evs : list event) : world W :=
  mkWorld (self w) (fs w) (clock w) (sigint_armed w) (user w) (events w ++ evs).

(** The world after a checkpoint write to [p]. *)
Definition flushed (w : world W) (p : string) : world W :=
  mkWorld (self w) (<[p := blob (progress (self w))]> (fs w)) (clock w)
    (sigint_armed w) (user w) (events w ++ [EvWrite p (progress (self w))]).

(** The world after the callback returned on [item] and its marker was
    appended. *)
Definition completed (w : world W) (item : pyobj) (u : W) : world W :=
  mkWorld (mkCheckpoint (input_data (self w)) (ckpt_file (self w))
             (progress (self w) ++ [_encode item]))
    (fs w) (clock w) (sigint_armed w) u
    (events w ++ [EvCall item; EvAppend (_encode item)]).

(** The path [check_progress] makes up when none is set. *)
Definition fresh_path (w : world W) : string := pretty (clock w) +:+ ".ckpt".

(** The world after [check_progress] made up a path and touched it. *)
Definition started (w : world W) : world W :=
  mkWorld (mkCheckpoint (input_data (self w)) (Some (fresh_path w)) (progress (self w)))
    (match fs w !! fresh_path w with
     | Some _ => fs w
     | None => <[fresh_path w := []]> (fs w)
     end)
    (clock w) (sigint_armed w) (user w) (events w ++ [EvTouch (fresh_path w)]).

(** The line [check_progress] prints after loading a checkpoint. *)
Definition resuming (p : string) (skipped : nat) : event :=
  EvPrint ("Resuming from `" +:+ p +:+ "`... Skipped "
           +:+ pretty (Z.of_nat skipped) +:+ " completed entries.").

(** The world after [check_progress] loaded [entries] from the file [p]. *)
Definition resumed (w : world W) (p : string) (entries : list pyobj) : world W :=
  mkWorld (mkCheckpoint (input_data (self w)) (ckpt_file (self w))
             (progress (self w) ++ (_encode <$> entries)))
    (fs w) (clock w) (sigint_armed w) (user w)
    (events w ++ [EvRead p] ++ (EvAppend <$> (_encode <$> entries))
       ++ [resuming p (length entries)]).

(** The world after [signal.signal(signal.SIGINT, ...)]. *)
Definition armed (w : world W) : world W :=
  mkWorld (self w) (fs w) (clock w) true (user w) (events w).

(** The items the callback was entered on and the markers recorded, for
    [k] items completed and a possible failure on the next one. *)
Definition item_steps (data : list pyobj) (k : nat) (failed : bool) : list event :=
  (take k data ≫= fun x => [EvCall x; EvAppend (_encode x)])
  ++ (if failed then EvCall <$> take 1 (drop k data) else []).

(** [check_progress] is a first half that settles the checkpoint file and
    loads it, and a second half that filters the input. *)
Definition locate_checkpoint : M W unit :=
  w <- get ;;
  match truthy_path (ckpt_file (self w)) with
  | None =>
      let p := pretty (clock w) +:+ ".ckpt" in
      set_self (mkCheckpoint (input_data (self w)) (Some p) (progress (self w))) ;;;
      touch p
  | Some p =>
      match fs w !! p with
      | Some _ =>
          loaded <- ckpt_io "read" ;;
          match loaded ≫= py_iter with
          | None => raise not_iterable
          | Some data =>
              load_progress data ;;;
              print ("Resuming from `" +:+ p +:+ "`... Skipped "
                     +:+ pretty (Z.of_nat (length data)) +:+ " completed entries.")
          end
      | None => raise missing_ckpt
      end
  end.

Definition remaining : M W (list pyobj) :=
  w <- get ;;
  data <- match input_data (self w) with
          | InputPath _ =>
              d <- read_data ;;
              match py_iter d with
              | Some l => ret l
              | None => raise not_iterable
              end
          | InputIter l => ret l
          | InputNone => raise not_iterable
          end ;;
  w <- get ;;
  ret (filter (fun x => _encode x ∉ progress (self w)) data).

(** The line [record] prints when nothing is left to do. *)
Definition nothing_to_update : event :=
  EvPrint "The progress is at 100%. Nothing to update.".

(** The line [record] prints before a periodic write. *)
Definition saving (p : string) : event :=
  EvPrint ("Saving progress to checkpoint file: `" +:+ p +:+ "`...").

End Reading.

#[global] Arguments fresh_path : simpl never.

(** ** Concrete data *)

(** The callback of the example scenario, [lambda item: item * 10]:
    numbers are multiplied, sequences repeated, [None] is a type error. *)
Definition times10 {W : Type} (item : pyobj) (u : W) : result pyobj * W :=
  (match item with
   | PyInt z => Ok (PyInt (z * 10))
   | PyBool b => Ok (PyInt (Z.b2z b * 10))
   | PyStr s => Ok (PyStr (String.concat "" (replicate 10 s)))
   | PyBytes b => Ok (PyBytes (concat (replicate 10 b)))
   | PyList l => Ok (PyList (concat (replicate 10 l)))
   | PyNone => Raise (TypeError "unsupported operand type(s) for *")
   end, u).

(** A new [Checkpoint(data)] in an empty directory, with a callback that
    keeps no state. *)
Definition fresh_world (data : list pyobj) : world unit :=
  mkWorld (init (InputIter data) None) ∅ 1700000000 false tt [].

(** A [Checkpoint(data, ckpt_file)] next to one file. *)
Definition resuming_world (data : list pyobj) (path : string) (content : bytes)
    : world unit :=
  mkWorld (init (InputIter data) (Some path)) {[path := content]} 1700000000
    false tt [].

(** How many markers each checkpoint write of a log holds. *)
Definition write_sizes (evs : list event) : list Z :=
  (fun '(_, s) => Z.of_nat (length s)) <$> writes evs.

(** The cadence read as gaps: a first write after [F] items, a second [2 * F]
    items later and a third [4 * F] items after that. *)
Definition cadence_by_gaps (F : Z) (sizes : list Z) : Prop :=
  sizes !! 0%nat = Some F
  /\ sizes !! 1%nat = Some (F + 2 * F)
  /\ sizes !! 2%nat = Some (F + 2 * F + 4 * F).

(** ** A reference instance of the library interface

    Small codecs that meet the contracts above: a pickle that writes the
    binary digits of a counting code of the value, an identity base64 and a
    gzip that frames its input with the two magic bytes.  It shows that the
    contracts can be met together and lets the engine run on concrete data. *)
Module RefLib.

Definition leaf : Type := (bool + Z + string + bytes)%type.

Fixpoint to_tree (x : pyobj) : gen_tree leaf :=
  match x with
  | PyNone => GenNode 0 []
  | PyBool b => GenLeaf (inl (inl (inl b)))
  | PyInt z => GenLeaf (inl (inl (inr z)))
  | PyStr s => GenLeaf (inl (inr s))
  | PyBytes b => GenLeaf (inr b)
  | PyList l => GenNode 1 (to_tree <$> l)
  end.

Fixpoint of_tree (t : gen_tree leaf) : pyobj :=
  match t with
  | GenLeaf (inl (inl (inl b))) => PyBool b
  | GenLeaf (inl (inl (inr z))) => PyInt z
  | GenLeaf (inl (inr s)) => PyStr s
  | GenLeaf (inr b) => PyBytes b
  | GenNode 0 _ => PyNone
  | GenNode _ ts => PyList (of_tree <$> ts)
  end.

Fixpoint pos_to_bytes (p : positive) : bytes :=
  match p with
  | xH => []
  | xO q => x00 :: pos_to_bytes q
  | xI q => x01 :: pos_to_bytes q
  end.

Fixpoint bytes_to_pos (b : bytes) : option positive :=
  match b with
  | [] => Some xH
  | x00 :: r => xO <$> bytes_to_pos r
  | x01 :: r => xI <$> bytes_to_pos r
  | _ => None
  end.

Definition gunzip (b : bytes) : option bytes :=
  match b with
  | x1f :: x8b :: r => Some r
  | _ => None
  end.

Lemma pyobj_nested_ind (P : pyobj -> Prop) :
  P PyNone ->
  (forall b, P (PyBool b)) ->
  (forall z, P (PyInt z)) ->
  (forall s, P (PyStr s)) ->
  (forall b, P (PyBytes b)) ->
  (forall l, Forall P l -> P (PyList l)) ->
  forall x, P x.
Proof.
  intros HN HB HI HS HY HL.
  fix IH 1.
  intros [ | b | z | s | b | l].
  - exact HN.
  - apply HB.
  - apply HI.
  - apply HS.
  - apply HY.
  - apply HL. induction l as [ | y l IHl]; constructor; [apply IH | exact IHl].
Qed.

Lemma of_to_tree (x : pyobj) : of_tree (to_tree x) = x.
Proof.
  induction x as [ | b | z | s | b | l IH] using pyobj_nested_ind; simpl; try done.
  f_equal. induction IH as [ | y l Hy _ IHl]; csimpl; [done | ].
  by rewrite Hy, IHl.
Qed.

#[global] Instance to_tree_inj : Inj (=) (=) to_tree.
Proof.
  intros x y H. rewrite <- (of_to_tree x), <- (of_to_tree y). by rewrite H.
Qed.

#[global] Instance pyobj_eq_dec : EqDecision pyobj.
Proof.
  intros x y. destruct (decide (to_tree x = to_tree y)) as [H | H].
  - left. by apply (inj to_tree).
  - right. intros ->. by apply H.
Defined.

#[global] Instance byte_countable : Countable byte :=
  inj_countable Byte.to_N Byte.of_N Byte.of_to_N.

#[global] Instance pyobj_countable : Countable pyobj :=
  inj_countable' to_tree of_tree of_to_tree.

Lemma bytes_to_pos_to_bytes (p : positive) : bytes_to_pos (pos_to_bytes p) = Some p.
Proof. induction p as [q IH | q IH | ]; simpl; by rewrite ?IH. Qed.

Definition lib : PyLib := {|
  pickle_dumps := fun x => pos_to_bytes (encode x);
  pickle_loads := fun b => bytes_to_pos b ≫= decode;
  b64encode := fun b => b;
  gzip_compress := fun b => x1f :: x8b :: b;
  gzip_decompress := gunzip;
  json_load := fun _ => None;
  path_suffix := fun _ => "";
  py7zr := None
|}.

Lemma lib_pickle_roundtrip : pickle_roundtrip lib.
Proof.
  intros x. simpl. rewrite bytes_to_pos_to_bytes. simpl. apply decode_encode.
Qed.

Lemma lib_gzip_roundtrip : gzip_roundtrip lib.
Proof. by intros b. Qed.

Lemma lib_b64_injective : b64_injective lib.
Proof. by intros a b. Qed.

End RefLib.

(** A second reference instance, for inputs read from files: the suffix
    of a path is its tail from the last dot on, and the JSON decoder is the
    reference pickle decoder. *)
Module RefFiles.

Fixpoint suffix_from (s : string) : option string :=
  match s with
  | EmptyString => None
  | String c s' =>
      match suffix_from s' with
      | Some r => Some r
      | None => if decide (c = "."%char) then Some s else None
      end
  end.

Definition lib : PyLib := {|
  pickle_dumps := @pickle_dumps RefLib.lib;
  pickle_loads := @pickle_loads RefLib.lib;
  b64encode := @b64encode RefLib.lib;
  gzip_compress := @gzip_compress RefLib.lib;
  gzip_decompress := @gzip_decompress RefLib.lib;
  json_load := @pickle_loads RefLib.lib;
  path_suffix := fun p => default "" (suffix_from p);
  py7zr := None
|}.

End RefFiles.

(** ** Further readings of a world *)

Section Frames.
Context {lib : PyLib} {W : Type}.

(** The world with another [self.input_data]. *)
Definition with_input (w : world W) (i : input) : world W :=
  mkWorld (mkCheckpoint i (ckpt_file (self w)) (progress (self w)))
    (fs w) (clock w) (sigint_armed w) (user w) (events w).

(** The checkpoint path [check_progress] settles on: the one set, or the
    one it makes up. *)
Definition effective_path (w : world W) : string :=
  default (fresh_path w) (truthy_path (ckpt_file (self w))).

(** The two lines [keyboard_interrupt_handler] prints. *)
Definition interrupt_lines (sig : Z) (p : option string) : list event :=
  [EvPrint ("KeyboardInterrupt (id: " +:+ pretty sig +:+ ") has been caught...");
   EvPrint ("Saving progress to checkpoint file `" +:+ opt_str p
            +:+ "` before terminating the program gracefully...")].

(** A callback that keeps no state and always returns. *)
Definition pure_callback (g : pyobj -> pyobj) : pyobj -> W -> result pyobj * W :=
  fun x u => (Ok (g x), u).

(** The threshold a loop entered with counter [n] and threshold
    [checkpoint_every] holds after [len] iterations. *)
Fixpoint threshold_after (len : nat) (n checkpoint_every : Z) : Z :=
  match len with
  | O => checkpoint_every
  | S len' =>
      if n + 1 =? checkpoint_every
      then threshold_after len' (n + 1) (checkpoint_every + checkpoint_every)
      else threshold_after len' (n + 1) checkpoint_every
  end.

(** What reading the bytes [raw] as a checkpoint raises, if it does. *)
Definition decode_error (raw : bytes) : option exn :=
  match gzip_decompress raw with
  | None => Some BadGzipFile
  | Some pickled =>
      match pickle_loads pickled with
      | None => Some UnpicklingError
      | Some loaded =>
          match py_iter loaded with
          | None => Some not_iterable
          | Some _ => None
          end
      end
  end.

(** The suffixes [read_data] knows, lower case. *)
Definition known_suffixes : list string := [".7z"; ".7zip"; ".json"; ".gz"; ".gzip"].

End Frames.

#[global] Arguments effective_path : simpl never.

(** * Properties *)

Ltac run :=
  unfold progress_append, print, emit, set_self, set_fs, set_user, arm_sigint,
    open_file, touch, call, bind, ret, raise, get, put; simpl.

Section Facts.
Context {lib : PyLib} {W : Type}.
Implicit Types (w : world W) (func : pyobj -> W -> result pyobj * W).

Lemma ckpt_io_write_run w p :
  ckpt_file (self w) = Some p ->
  ckpt_io "write" w = (Ok None, flushed w p).
Proof.
  intros Hp. unfold ckpt_io. run. rewrite Hp. simpl. reflexivity.
Qed.

Lemma ckpt_io_read_run w p raw pickled data :
  ckpt_file (self w) = Some p ->
  fs w !! p = Some raw ->
  gzip_decompress raw = Some pickled ->
  pickle_loads pickled = Some data ->
  ckpt_io "read" w = (Ok (Some data), log w [EvRead p]).
Proof.
  intros Hp Hraw Hgz Hpk. unfold ckpt_io. run. rewrite Hp. simpl.
  rewrite Hraw. simpl. rewrite Hgz, Hpk. reflexivity.
Qed.

Lemma record_loop_raise func item rest n ce results w e u :
  func item (user w) = (Raise e, u) ->
  record_loop func (item :: rest) n ce results w =
    (Raise e, mkWorld (self w) (fs w) (clock w) (sigint_armed w) u
                (events w ++ [EvCall item])).
Proof. intros Hf. simpl. run. rewrite Hf. reflexivity. Qed.

Lemma record_loop_ok func item rest n ce results w p r u :
  ckpt_file (self w) = Some p ->
  func item (user w) = (Ok r, u) ->
  record_loop func (item :: rest) n ce results w =
    if n + 1 =? ce
    then record_loop func rest (n + 1) (ce + ce) (results ++ [r])
           (flushed (log (completed w item u) [saving p]) p)
    else record_loop func rest (n + 1) ce (results ++ [r]) (completed w item u).
Proof.
  intros Hp Hf. simpl. run. rewrite Hf. simpl.
  unfold completed. rewrite <- app_assoc. simpl.
  destruct (n + 1 =? ce); [ | reflexivity].
  unfold ckpt_io. run. rewrite Hp. reflexivity.
Qed.

Lemma record_loop_flush func item rest n ce results w p r u :
  ckpt_file (self w) = Some p ->
  func item (user w) = (Ok r, u) ->
  n + 1 = ce ->
  record_loop func (item :: rest) n ce results w =
    record_loop func rest (n + 1) (ce + ce) (results ++ [r])
      (flushed (log (completed w item u) [saving p]) p).
Proof.
  intros Hp Hf Hn. rewrite (record_loop_ok _ _ _ _ _ _ _ p r u Hp Hf).
  by rewrite (proj2 (Z.eqb_eq _ _) Hn).
Qed.

Lemma record_loop_skip func item rest n ce results w p r u :
  ckpt_file (self w) = Some p ->
  func item (user w) = (Ok r, u) ->
  n + 1 <> ce ->
  record_loop func (item :: rest) n ce results w =
    record_loop func rest (n + 1) ce (results ++ [r]) (completed w item u).
Proof.
  intros Hp Hf Hn. rewrite (record_loop_ok _ _ _ _ _ _ _ p r u Hp Hf).
  by rewrite (proj2 (Z.eqb_neq _ _) Hn).
Qed.

Lemma flush_counts_bounds len : forall n ce c,
  c ∈ flush_counts len n ce -> n < c <= n + Z.of_nat len.
Proof.
  induction len as [ | len IH]; intros n ce c; simpl.
  - by intros ?%elem_of_nil.
  - destruct (n + 1 =? ce).
    + intros [-> | Hc%IH]%elem_of_cons; lia.
    + intros Hc%IH. lia.
Qed.

Lemma writes_app (a b : list event) : writes (a ++ b) = writes a ++ writes b.
Proof. apply omap_app. Qed.

Lemma steps_app (a b : list event) : steps (a ++ b) = steps a ++ steps b.
Proof. apply omap_app. Qed.

Lemma calls_app (a b : list event) : calls (a ++ b) = calls a ++ calls b.
Proof. apply omap_app. Qed.

Lemma appends_app (a b : list event) : appends (a ++ b) = appends a ++ appends b.
Proof. apply omap_app. Qed.

Lemma apply_writes_app (a b : list (string * list bytes)) (f : gmap string bytes) :
  apply_writes (a ++ b) f = apply_writes b (apply_writes a f).
Proof. apply foldl_app. Qed.

Lemma snapshot_at_0 (done : list bytes) (data : list pyobj) : snapshot_at done data 0 = done.
Proof. unfold snapshot_at. simpl. by rewrite app_nil_r. Qed.

Lemma snapshot_at_cons (done : list bytes) (x : pyobj) (rest : list pyobj) (c : Z) :
  0 < c ->
  snapshot_at done (x :: rest) c = snapshot_at (done ++ [_encode x]) rest (c - 1).
Proof.
  intros Hc. unfold snapshot_at.
  replace (Z.to_nat c) with (S (Z.to_nat (c - 1))) by lia.
  simpl. by rewrite <- app_assoc.
Qed.

(** The loop, in closed form: its outcome is the callback's, the Done-List
    grows by the markers of the completed items, and the log holds one
    call (and one append) per item and one write per counter value in
    [flush_counts]. *)
Lemma record_loop_spec func data : forall n ce results w p rs u' oe,
  ckpt_file (self w) = Some p ->
  run_func func data (user w) = (rs, u', oe) ->
  exists new,
    record_loop func data n ce results w =
      (match oe with None => Ok (results ++ rs) | Some e => Raise e end,
       mkWorld (mkCheckpoint (input_data (self w)) (Some p)
                  (snapshot_at (progress (self w)) data (Z.of_nat (length rs))))
         (apply_writes (writes new) (fs w)) (clock w) (sigint_armed w) u'
         (events w ++ new))
    /\ steps new = item_steps data (length rs) (bool_decide (oe <> None))
    /\ writes new =
         (fun c => (p, snapshot_at (progress (self w)) data (c - n)))
           <$> flush_counts (length rs) n ce.
Proof.
  induction data as [ | x rest IH]; intros n ce results w p rs u' oe Hp Hrun.
  - simpl in Hrun. injection Hrun as <- <- <-. exists []. simpl.
    rewrite snapshot_at_0, !app_nil_r. destruct w as [[i c pr] f k a u evs].
    simpl in *. subst c. done.
  - simpl in Hrun. destruct (func x (user w)) as [[r | e] u1] eqn:Hf.
    + destruct (run_func func rest u1) as [[rs' u''] oe'] eqn:Hrest.
      injection Hrun as <- <- <-.
      rewrite (record_loop_ok _ _ _ _ _ _ _ p r u1 Hp Hf). simpl length.
      destruct (n + 1 =? ce) eqn:Hflush.
      * destruct (IH (n + 1) (ce + ce) (results ++ [r])
                    (flushed (log (completed w x u1) [saving p]) p) p rs' u'' oe'
                    Hp Hrest) as (new & Hloop & Hsteps & Hwrites).
        exists ([EvCall x; EvAppend (_encode x); saving p;
                 EvWrite p (progress (self w) ++ [_encode x])] ++ new).
        split; [ | split].
        -- rewrite Hloop. simpl.
           rewrite <- !app_assoc. simpl.
           rewrite (snapshot_at_cons _ x rest) by lia.
           by replace (Z.of_nat (S (length rs')) - 1) with (Z.of_nat (length rs')) by lia.
        -- simpl. rewrite Hsteps. unfold item_steps. simpl. done.
        -- simpl. rewrite Hwrites, Hflush. simpl.
           rewrite snapshot_at_cons by lia.
           replace (n + 1 - n - 1) with 0 by lia. rewrite snapshot_at_0.
           f_equal. apply list_fmap_ext.
           intros i c Hc%list_elem_of_lookup_2%flush_counts_bounds.
           rewrite (snapshot_at_cons _ x rest) by lia.
           by replace (c - n - 1) with (c - (n + 1)) by lia.
      * destruct (IH (n + 1) ce (results ++ [r]) (completed w x u1) p rs' u'' oe'
                    Hp Hrest) as (new & Hloop & Hsteps & Hwrites).
        exists ([EvCall x; EvAppend (_encode x)] ++ new).
        split; [ | split].
        -- rewrite Hloop. simpl.
           rewrite <- !app_assoc. simpl.
           rewrite (snapshot_at_cons _ x rest) by lia.
           by replace (Z.of_nat (S (length rs')) - 1) with (Z.of_nat (length rs')) by lia.
        -- simpl. rewrite Hsteps. unfold item_steps. simpl. done.
        -- simpl. rewrite Hwrites, Hflush. simpl.
           apply list_fmap_ext.
           intros i c Hc%list_elem_of_lookup_2%flush_counts_bounds.
           rewrite (snapshot_at_cons _ x rest) by lia.
           by replace (c - n - 1) with (c - (n + 1)) by lia.
    + injection Hrun as <- <- <-.
      rewrite (record_loop_raise _ _ _ _ _ _ _ e u1 Hf).
      exists [EvCall x]. simpl. rewrite snapshot_at_0.
      destruct w as [[i c pr] f k a u evs]. simpl in *. subst c. done.
Qed.

Lemma truthy_path_Some (o : option string) (p : string) :
  truthy_path o = Some p <-> o = Some p /\ p <> "".
Proof.
  unfold truthy_path. destruct o as [q | ]; [ | by split; [ | intros [? _]]].
  destruct (decide (q = "")) as [-> | Hq]; split.
  - done.
  - by intros [[= <-] ?].
  - by intros [= <-].
  - by intros [[= <-] _].
Qed.

Lemma load_progress_run (data : list pyobj) : forall w,
  load_progress data w =
    (Ok tt, mkWorld (mkCheckpoint (input_data (self w)) (ckpt_file (self w))
                       (progress (self w) ++ (_encode <$> data)))
              (fs w) (clock w) (sigint_armed w) (user w)
              (events w ++ (EvAppend <$> (_encode <$> data)))).
Proof.
  induction data as [ | x rest IH]; intros w; simpl.
  - unfold ret. rewrite !app_nil_r. by destruct w as [[] ].
  - run. rewrite IH. simpl. by rewrite <- !app_assoc.
Qed.

Lemma check_progress_fresh w (data : list pyobj) :
  truthy_path (ckpt_file (self w)) = None ->
  input_data (self w) = InputIter data ->
  check_progress w =
    (Ok (filter (fun x => _encode x ∉ progress (self w)) data), started w).
Proof.
  intros Hp Hin. unfold check_progress. run. rewrite Hp. simpl.
  unfold started, fresh_path. destruct (fs w !! _); simpl; by rewrite Hin.
Qed.

Lemma check_progress_missing w (p : string) :
  truthy_path (ckpt_file (self w)) = Some p ->
  fs w !! p = None ->
  check_progress w = (Raise missing_ckpt, w).
Proof.
  intros Hp Hfs. unfold check_progress. run. rewrite Hp, Hfs. reflexivity.
Qed.

Lemma check_progress_resume w (p : string) (raw pickled : bytes) (loaded : pyobj)
    (entries data : list pyobj) :
  truthy_path (ckpt_file (self w)) = Some p ->
  fs w !! p = Some raw ->
  gzip_decompress raw = Some pickled ->
  pickle_loads pickled = Some loaded ->
  py_iter loaded = Some entries ->
  input_data (self w) = InputIter data ->
  check_progress w =
    (Ok (filter (fun x => _encode x ∉ progress (self w) ++ (_encode <$> entries)) data),
     resumed w p entries).
Proof.
  intros Hp Hfs Hgz Hpk Hit Hin. unfold check_progress. run. rewrite Hp, Hfs.
  apply truthy_path_Some in Hp as [Hp _].
  rewrite (ckpt_io_read_run w p raw pickled loaded Hp Hfs Hgz Hpk). simpl.
  rewrite Hit. rewrite load_progress_run. simpl. rewrite Hin. simpl.
  unfold resumed, resuming. rewrite <- ?app_assoc. by rewrite Hin.
Qed.

Lemma check_progress_split w :
  check_progress w = (locate_checkpoint ;;; remaining) w.
Proof. reflexivity. Qed.

Lemma read_data_inv w :
  exists r, read_data w = (r, w) /\ raised r <> Some missing_ckpt.
Proof.
  unfold read_data, json_of. run.
  repeat (case_match; simplify_eq/=); eexists; (split; [reflexivity | discriminate]).
Qed.

Lemma remaining_inv w :
  exists r, remaining w = (r, w) /\ raised r <> Some missing_ckpt.
Proof.
  unfold remaining. run. destruct (input_data (self w)) as [ | path | l]; simpl.
  - eexists; split; [reflexivity | discriminate].
  - destruct (read_data_inv w) as (r & -> & Hr).
    destruct r as [d | e]; [ | eexists; split; [reflexivity | exact Hr]].
    destruct (py_iter d); simpl; eexists; (split; [reflexivity | discriminate]).
  - eexists; split; [reflexivity | discriminate].
Qed.

Lemma locate_checkpoint_fresh w :
  truthy_path (ckpt_file (self w)) = None ->
  locate_checkpoint w = (Ok tt, started w).
Proof.
  intros Hp. unfold locate_checkpoint. run. rewrite Hp. simpl.
  unfold started, fresh_path. by destruct (fs w !! _).
Qed.

Lemma locate_checkpoint_missing w (p : string) :
  truthy_path (ckpt_file (self w)) = Some p ->
  fs w !! p = None ->
  locate_checkpoint w = (Raise missing_ckpt, w).
Proof.
  intros Hp Hfs. unfold locate_checkpoint. run. rewrite Hp, Hfs. reflexivity.
Qed.

Lemma locate_checkpoint_existing w (p : string) (raw : bytes) :
  truthy_path (ckpt_file (self w)) = Some p ->
  fs w !! p = Some raw ->
  (exists entries, locate_checkpoint w = (Ok tt, resumed w p entries))
  \/ (exists e, e <> missing_ckpt
               /\ locate_checkpoint w = (Raise e, log w [EvRead p])).
Proof.
  intros Hp Hfs. unfold locate_checkpoint. run. rewrite Hp, Hfs.
  apply truthy_path_Some in Hp as [Hp _].
  unfold ckpt_io. run. rewrite Hp. simpl. rewrite Hfs. simpl.
  destruct (gzip_decompress raw) as [pickled | ]; simpl;
    [ | right; eexists; split; [ | reflexivity]; discriminate].
  destruct (pickle_loads pickled) as [loaded | ]; simpl;
    [ | right; eexists; split; [ | reflexivity]; discriminate].
  destruct (py_iter loaded) as [entries | ]; simpl;
    [ | right; eexists; split; [ | reflexivity]; discriminate].
  left. exists entries. rewrite load_progress_run. simpl.
  unfold resumed, resuming. by rewrite <- ?app_assoc.
Qed.

Lemma writes_EvAppend (ms : list bytes) : writes (EvAppend <$> ms) = [].
Proof. induction ms as [ | m ms IH]; [done | exact IH]. Qed.

Lemma calls_EvAppend (ms : list bytes) : calls (EvAppend <$> ms) = [].
Proof. induction ms as [ | m ms IH]; [done | exact IH]. Qed.

(** What every run of [check_progress] has in common. *)
Lemma check_progress_inv w :
  exists r w1 new,
    check_progress w = (r, w1)
    /\ events w1 = events w ++ new /\ writes new = [] /\ calls new = []
    /\ user w1 = user w
    /\ progress (self w) `prefix_of` progress (self w1)
    /\ (raised r = None -> is_Some (ckpt_file (self w1)))
    /\ (raised r = Some missing_ckpt <->
        exists p, truthy_path (ckpt_file (self w)) = Some p /\ fs w !! p = None)
    /\ (raised r = Some missing_ckpt -> w1 = w).
Proof.
  rewrite check_progress_split. unfold bind.
  destruct (truthy_path (ckpt_file (self w))) as [p | ] eqn:Hp.
  - destruct (fs w !! p) as [raw | ] eqn:Hfs.
    + destruct (locate_checkpoint_existing w p raw Hp Hfs)
        as [(entries & ->) | (e & He & ->)].
      * destruct (remaining_inv (resumed w p entries)) as (r & -> & Hr).
        exists r, (resumed w p entries). eexists. split; [done | ].
        split; [reflexivity | ].
        apply truthy_path_Some in Hp as [Hp _].
        repeat split; simpl; try done.
        -- by rewrite writes_app, writes_EvAppend.
        -- by rewrite calls_app, calls_EvAppend.
        -- by apply prefix_app_r.
        -- intros (q & [= ->] & Hq). congruence.
      * exists (Raise e), (log w [EvRead p]), [EvRead p]. simpl.
        repeat split; try done; try congruence.
        intros (q & [= ->] & Hq). congruence.
    + rewrite (locate_checkpoint_missing w p Hp Hfs).
      exists (Raise missing_ckpt), w, []. simpl. rewrite app_nil_r.
      repeat split; try done. by exists p.
  - rewrite (locate_checkpoint_fresh w Hp).
    destruct (remaining_inv (started w)) as (r & -> & Hr).
    exists r, (started w), [EvTouch (fresh_path w)]. simpl.
    repeat split; try done. by intros (q & [=] & _).
Qed.

Lemma run_func_length func data : forall u rs u' oe,
  run_func func data u = (rs, u', oe) ->
  match oe with
  | None => length rs = length data
  | Some _ => (length rs < length data)%nat
  end.
Proof.
  induction data as [ | x rest IH]; intros u rs u' oe; simpl.
  - by intros [= <- <- <-].
  - destruct (func x u) as [[r | e] u1].
    + destruct (run_func func rest u1) as [[rs' u''] oe'] eqn:Hrest.
      intros [= <- <- <-]. specialize (IH _ _ _ _ Hrest).
      destruct oe'; simpl; lia.
    + intros [= <- <- <-]. simpl. lia.
Qed.

Lemma record_raise func ce sp w w1 e :
  check_progress w = (Raise e, w1) ->
  record func ce sp w = (Raise e, w1).
Proof. intros H. unfold record, bind. by rewrite H. Qed.

Lemma record_nothing func ce sp w w1 :
  check_progress w = (Ok [], w1) ->
  record func ce sp w = (Ok None, log w1 [nothing_to_update]).
Proof. intros H. unfold record, bind. by rewrite H. Qed.

(** [record] on a non-empty Work Set, in closed form. *)
Lemma record_work func ce sp w w1 data p rs u' oe :
  check_progress w = (Ok data, w1) ->
  data <> [] ->
  ckpt_file (self w1) = Some p ->
  run_func func data (user w1) = (rs, u', oe) ->
  exists new,
    record func ce sp w =
      (match oe with None => Ok (Some rs) | Some e => Raise e end,
       mkWorld (mkCheckpoint (input_data (self w1)) (Some p)
                  (snapshot_at (progress (self w1)) data (Z.of_nat (length rs))))
         (apply_writes (writes new) (fs w1)) (clock w1) true u'
         (events w1 ++ new))
    /\ steps new = item_steps data (length rs) (bool_decide (oe <> None))
    /\ writes new =
         (fun c => (p, snapshot_at (progress (self w1)) data c))
           <$> (flush_counts (length rs) 0 ce
                ++ match oe with None => [Z.of_nat (length data)] | Some _ => [] end).
Proof.
  intros Hcheck Hdata Hp Hrun. unfold record, bind at 1. rewrite Hcheck.
  destruct data as [ | x rest]; [done | ]. clear Hdata.
  set (w2 := mkWorld (self w1) (fs w1) (clock w1) true (user w1) (events w1)).
  destruct (record_loop_spec func (x :: rest) 0 ce [] w2 p rs u' oe Hp Hrun)
    as (new & Hloop & Hsteps & Hwrites).
  unfold bind, arm_sigint. fold w2. rewrite Hloop. simpl.
  assert (Hfmap : writes new =
            (fun c => (p, snapshot_at (progress (self w1)) (x :: rest) c))
              <$> flush_counts (length rs) 0 ce).
  { rewrite Hwrites. apply list_fmap_ext. intros i c _. simpl.
    by rewrite Z.sub_0_r. }
  destruct oe as [e | ].
  - exists new. rewrite app_nil_r. done.
  - pose proof (run_func_length _ _ _ _ _ _ Hrun) as Hlen. simpl in Hlen.
    exists (new ++ [EvWrite p (snapshot_at (progress (self w1)) (x :: rest)
                                 (Z.of_nat (length rs)))]).
    unfold ckpt_io. run.
    rewrite writes_app, apply_writes_app, steps_app, app_nil_r, app_assoc. simpl.
    repeat split; try done.
    rewrite fmap_app, Hfmap. simpl. by rewrite Hlen.
Qed.

End Facts.

(** ** The flush cadence *)

Lemma pow2_pos (t : nat) : 1 <= 2 ^ Z.of_nat t.
Proof. pose proof (Z.pow_pos_nonneg 2 (Z.of_nat t)). lia. Qed.

Lemma pow2_succ (t : nat) : 2 ^ Z.of_nat (S t) = 2 * 2 ^ Z.of_nat t.
Proof. rewrite Nat2Z.inj_succ. apply Z.pow_succ_r. lia. Qed.

(** The loop finds its counter on the threshold exactly at the values
    [F * 2^t] that it reaches. *)
Lemma flush_counts_spec len : forall n ce c,
  0 <= n < ce ->
  c ∈ flush_counts len n ce <->
  n < c <= n + Z.of_nat len /\ exists t : nat, c = ce * 2 ^ Z.of_nat t.
Proof.
  induction len as [ | len IH]; intros n ce c Hn; simpl.
  - split; [by intros ?%elem_of_nil | lia].
  - destruct (Z.eqb_spec (n + 1) ce) as [Heq | Hne].
    + rewrite elem_of_cons, (IH (n + 1) (ce + ce) c) by lia. split.
      * intros [-> | (Hc & t & ->)].
        -- split; [lia | ]. exists 0%nat. simpl. lia.
        -- split; [lia | ]. exists (S t). rewrite pow2_succ. lia.
      * intros (Hc & [ | t] & ->).
        -- left. simpl. lia.
        -- right. rewrite pow2_succ in *. pose proof (pow2_pos t).
           split; [nia | ]. exists t. lia.
    + rewrite (IH (n + 1) ce c) by lia. split.
      * intros (Hc & t & ->). split; [lia | by exists t].
      * intros (Hc & t & ->). pose proof (pow2_pos t).
        split; [nia | by exists t].
Qed.

Lemma flush_counts_sorted len : forall n ce,
  StronglySorted Z.lt (flush_counts len n ce).
Proof.
  induction len as [ | len IH]; intros n ce; simpl; [constructor | ].
  destruct (n + 1 =? ce); [ | apply IH].
  constructor; [apply IH | ].
  apply Forall_forall. intros c Hc%flush_counts_bounds. lia.
Qed.

Lemma flush_counts_none len : forall n ce,
  (ce <= n \/ n + Z.of_nat len < ce) -> flush_counts len n ce = [].
Proof.
  induction len as [ | len IH]; intros n ce Hn; simpl; [done | ].
  destruct (Z.eqb_spec (n + 1) ce) as [Heq | Hne]; [lia | ].
  apply IH. lia.
Qed.

Lemma flush_counts_head len : forall n ce,
  n < ce <= n + Z.of_nat len ->
  flush_counts len n ce
  = ce :: flush_counts (len - Z.to_nat (ce - n)) ce (ce + ce).
Proof.
  induction len as [ | len IH]; intros n ce Hn; simpl; [lia | ].
  destruct (Z.eqb_spec (n + 1) ce) as [Heq | Hne].
  - subst ce. do 2 f_equal. lia.
  - rewrite IH by lia. do 2 f_equal. lia.
Qed.

(** With room for [4 * F] items the first three periodic writes come after
    [F], [2 * F] and [4 * F] items, counted from the start of the run. *)
Lemma flush_counts_first_three (len : nat) (F : Z) :
  1 <= F -> 4 * F <= Z.of_nat len ->
  take 3 (flush_counts len 0 F) = [F; 2 * F; 4 * F].
Proof.
  intros HF Hlen.
  rewrite flush_counts_head by lia.
  rewrite flush_counts_head by lia.
  rewrite flush_counts_head by lia.
  simpl. do 2 f_equal; [lia | f_equal; lia].
Qed.

(** ** The claims *)

Section Claims.
Context {lib : PyLib} {W : Type}.
Implicit Types (w : world W) (func : pyobj -> W -> result pyobj * W).

Lemma _encode_inj :
  pickle_roundtrip lib -> b64_injective lib -> Inj (=) (=) _encode.
Proof.
  intros Hpk Hb64 x y Hxy. apply Hb64 in Hxy.
  apply (f_equal pickle_loads) in Hxy. rewrite !Hpk in Hxy. congruence.
Qed.

(** Two items have the same marker exactly when they are the same value. *)
Lemma _encode_eq_iff (a b : pyobj) :
  pickle_roundtrip lib -> b64_injective lib ->
  _encode a = _encode b <-> a = b.
Proof.
  intros Hpk Hb64. split; [apply (_encode_inj Hpk Hb64) | by intros ->].
Qed.

Lemma read_back w (p : string) :
  pickle_roundtrip lib -> gzip_roundtrip lib ->
  ckpt_file (self w) = Some p ->
  fs w !! p = Some (blob (progress (self w))) ->
  ckpt_io "read" w =
    (Ok (Some (PyList (PyBytes <$> progress (self w)))), log w [EvRead p]).
Proof.
  intros Hpk Hgz Hp Hfs.
  apply (ckpt_io_read_run w p _ _ _ Hp Hfs (Hgz _) (Hpk _)).
Qed.


(** C8. Missing-checkpoint usage error: [check_progress] raises
    [FileNotFoundError('The path to the checkpoint file does not exist!')]
    exactly when a (non-empty) checkpoint path is set and no file is at
    that path; when it does, the world is left as it was, so no callback
    ran and nothing was written, and [record] passes the error on in that
    same world. *)
Theorem missing_checkpoint_error w :
  (fst (check_progress w) = Raise missing_ckpt <->
   exists p, truthy_path (ckpt_file (self w)) = Some p /\ fs w !! p = None)
  /\ (fst (check_progress w) = Raise missing_ckpt ->
      snd (check_progress w) = w
      /\ forall func ce sp, record func ce sp w = (Raise missing_ckpt, w)).
Proof.
  destruct (check_progress_inv w)
    as (r & w1 & new & Hcheck & _ & _ & _ & _ & _ & _ & Hiff & Hsame).
  rewrite Hcheck. simpl. split.
  - rewrite <- Hiff. destruct r; simpl; split; congruence.
  - intros ->. specialize (Hsame eq_refl). subst w1. split; [done | ].
    intros func ce sp. by apply record_raise.
Qed.

Lemma calls_steps (evs : list event) : calls (steps evs) = calls evs.
Proof.
  induction evs as [ | e evs IH]; [done | ].
  destruct e; simpl; by rewrite ?IH.
Qed.

Lemma appends_steps (evs : list event) : appends (steps evs) = appends evs.
Proof.
  induction evs as [ | e evs IH]; [done | ].
  destruct e; simpl; by rewrite ?IH.
Qed.

Lemma calls_completed (items : list pyobj) :
  calls (items ≫= fun x => [EvCall x; EvAppend (_encode x)]) = items.
Proof. induction items as [ | x items IH]; csimpl; by rewrite ?IH. Qed.

Lemma appends_completed (items : list pyobj) :
  appends (items ≫= fun x => [EvCall x; EvAppend (_encode x)]) = _encode <$> items.
Proof. induction items as [ | x items IH]; csimpl; by rewrite ?IH. Qed.

Lemma calls_EvCall (items : list pyobj) : calls (EvCall <$> items) = items.
Proof. induction items as [ | x items IH]; csimpl; by rewrite ?IH. Qed.

Lemma appends_EvCall (items : list pyobj) : appends (EvCall <$> items) = [].
Proof. induction items as [ | x items IH]; csimpl; by rewrite ?IH. Qed.

(** Resuming from a file that [ckpt_io] wrote for the Done-List [done]:
    every stored marker is encoded once more before it joins the exclusion
    list. *)
Lemma check_progress_reload w (p : string) (done : list bytes) (data : list pyobj) :
  pickle_roundtrip lib -> gzip_roundtrip lib ->
  truthy_path (ckpt_file (self w)) = Some p ->
  fs w !! p = Some (blob done) ->
  input_data (self w) = InputIter data ->
  check_progress w =
    (Ok (filter (fun x => _encode x ∉ progress (self w)
                                      ++ (_encode <$> (PyBytes <$> done))) data),
     resumed w p (PyBytes <$> done)).
Proof.
  intros Hpk Hgz Hp Hfs Hin.
  by apply (check_progress_resume w p _ _ _ _ data Hp Hfs (Hgz _) (Hpk _)).
Qed.

(** What resuming excludes, then: an input item is dropped when it is
    itself a byte string equal to a stored marker, not when its marker is
    stored. *)
Lemma check_progress_reload_work_set w (p : string) (done : list bytes)
    (data : list pyobj) :
  pickle_roundtrip lib -> gzip_roundtrip lib -> b64_injective lib ->
  truthy_path (ckpt_file (self w)) = Some p ->
  progress (self w) = [] ->
  fs w !! p = Some (blob done) ->
  input_data (self w) = InputIter data ->
  fst (check_progress w) = Ok (filter (fun x => x ∉ PyBytes <$> done) data).
Proof.
  intros Hpk Hgz Hb64 Hp Hpr Hfs Hin.
  rewrite (check_progress_reload w p _ _ Hpk Hgz Hp Hfs Hin), Hpr. simpl.
  f_equal. apply list_filter_iff. intros x.
  pose proof (_encode_inj Hpk Hb64) as Hinj.
  by rewrite list_elem_of_fmap_inj.
Qed.

(** C1, at the failing input. The input is [[1, 2, 3]] and the checkpoint file
    holds the marker of [1], as [ckpt_io] writes it.  [check_progress]
    puts the re-encoded marker in the exclusion list, reports one skipped
    entry and returns all three items: item [1] is not excluded. *)
Theorem check_progress_reencodes_markers w (p : string) :
  pickle_roundtrip lib -> gzip_roundtrip lib -> b64_injective lib ->
  truthy_path (ckpt_file (self w)) = Some p ->
  progress (self w) = [] ->
  input_data (self w) = InputIter [PyInt 1; PyInt 2; PyInt 3] ->
  fs w !! p = Some (blob [_encode (PyInt 1)]) ->
  exists w1,
    check_progress w = (Ok [PyInt 1; PyInt 2; PyInt 3], w1)
    /\ progress (self w1) = [_encode (PyBytes (_encode (PyInt 1)))]
    /\ events w1 = events w ++ [EvRead p;
                                 EvAppend (_encode (PyBytes (_encode (PyInt 1))));
                                 resuming p 1].
Proof.
  intros Hpk Hgz Hb64 Hp Hpr Hin Hfs.
  exists (resumed w p [PyBytes (_encode (PyInt 1))]).
  rewrite (check_progress_reload w p _ _ Hpk Hgz Hp Hfs Hin), Hpr. simpl.
  rewrite Hpr. repeat split; try done. f_equal.
  pose proof (_encode_inj Hpk Hb64) as Hinj.
  rewrite !filter_cons_True; [done | | | ];
    intros [? % Hinj | ? % elem_of_nil] % elem_of_cons; done.
Qed.

(** C2, at the failing input. The input is [[1]] and the checkpoint file holds the
    marker of [1]: every item is marked done.  [record] nevertheless calls
    the callback on [1], returns its result and writes the checkpoint. *)
Theorem record_reruns_completed_item func ce sp w (p : string) (r : pyobj) (u : W) :
  pickle_roundtrip lib -> gzip_roundtrip lib -> b64_injective lib ->
  truthy_path (ckpt_file (self w)) = Some p ->
  progress (self w) = [] ->
  input_data (self w) = InputIter [PyInt 1] ->
  fs w !! p = Some (blob [_encode (PyInt 1)]) ->
  func (PyInt 1) (user w) = (Ok r, u) ->
  exists w' new,
    record func ce sp w = (Ok (Some [r]), w')
    /\ events w' = events w ++ new
    /\ calls new = [PyInt 1]
    /\ last (writes new)
       = Some (p, [_encode (PyBytes (_encode (PyInt 1))); _encode (PyInt 1)]).
Proof.
  intros Hpk Hgz Hb64 Hp Hpr Hin Hfs Hf.
  pose proof (_encode_inj Hpk Hb64) as Hinj.
  assert (Hcheck : check_progress w
                   = (Ok [PyInt 1], resumed w p [PyBytes (_encode (PyInt 1))])).
  { rewrite (check_progress_reload w p _ _ Hpk Hgz Hp Hfs Hin), Hpr. simpl.
    do 2 f_equal. rewrite filter_cons_True; [done | ].
    intros [? % Hinj | ? % elem_of_nil] % elem_of_cons; done. }
  apply truthy_path_Some in Hp as [Hp _].
  destruct (record_work func ce sp w _ [PyInt 1] p [r] u None Hcheck)
    as (new & Hrec & Hsteps & Hwrites); [done | done | by simpl; rewrite Hf | ].
  eexists _, _. split; [exact Hrec | ]. simpl. rewrite <- !app_assoc.
  split; [reflexivity | ]. split.
  - by rewrite !calls_app, <- (calls_steps new), Hsteps.
  - rewrite !writes_app, Hwrites, fmap_app, !last_app. simpl. by rewrite Hpr.
Qed.

Lemma run_func_app_raise func (pre post : list pyobj) (x : pyobj) (e : exn) :
  forall u rs u1 u2,
  run_func func pre u = (rs, u1, None) ->
  func x u1 = (Raise e, u2) ->
  run_func func (pre ++ x :: post) u = (rs, u2, Some e).
Proof.
  induction pre as [ | y pre IH]; intros u rs u1 u2; simpl.
  - intros [= <- <-] Hx. by rewrite Hx.
  - destruct (func y u) as [[r | e'] u'] eqn:Hy; [ | done].
    destruct (run_func func pre u') as [[rs' u''] oe'] eqn:Hpre.
    intros [= <- <- ->] Hx. by rewrite (IH _ _ _ _ Hpre Hx).
Qed.

(** C3. Callback failure semantics: when the callback returns on the items
    [pre] of the Work Set and raises [e] on the next item [x], [record]
    ends with that same exception; the Done-List is then the one the loop
    started from followed by the markers of [pre] and nothing else, and the
    log of the run shows each marker appended right after the call for its
    item, the call on [x] last and no marker for [x]. *)
Theorem callback_failure_propagates func ce sp w w1
    (pre post : list pyobj) (x : pyobj) (rs : list pyobj) (u1 u2 : W) (e : exn) :
  check_progress w = (Ok (pre ++ x :: post), w1) ->
  run_func func pre (user w1) = (rs, u1, None) ->
  func x u1 = (Raise e, u2) ->
  exists w' new,
    record func ce sp w = (Raise e, w')
    /\ progress (self w') = progress (self w1) ++ (_encode <$> pre)
    /\ events w' = events w1 ++ new
    /\ steps new
       = (pre ≫= fun y => [EvCall y; EvAppend (_encode y)]) ++ [EvCall x]
    /\ appends new = _encode <$> pre.
Proof.
  intros Hcheck Hpre Hx.
  destruct (check_progress_inv w)
    as (r & w1' & _ & Hcheck' & _ & _ & _ & _ & _ & Hpath & _).
  rewrite Hcheck in Hcheck'. injection Hcheck' as <- <-.
  destruct (Hpath eq_refl) as [p Hp].
  pose proof (run_func_app_raise func pre post x e _ _ _ _ Hpre Hx) as Hrun.
  pose proof (run_func_length _ _ _ _ _ _ Hpre) as Hlen. simpl in Hlen.
  destruct (record_work func ce sp w w1 _ p rs u2 (Some e) Hcheck) as
    (new & Hrec & Hsteps & _); [by destruct pre | done | done | ].
  assert (Hsteps' : steps new
            = (pre ≫= fun y => [EvCall y; EvAppend (_encode y)]) ++ [EvCall x]).
  { rewrite Hsteps. unfold item_steps. rewrite Hlen.
    by rewrite take_app_length, drop_app_length. }
  eexists _, new. split; [exact Hrec | ]. simpl.
  repeat split; try done.
  - unfold snapshot_at. by rewrite Nat2Z.id, Hlen, take_app_length.
  - rewrite <- appends_steps, Hsteps', appends_app, appends_completed. simpl.
    by rewrite app_nil_r.
Qed.


Lemma snapshot_at_mono (done : list bytes) (data : list pyobj) (c c' : Z) :
  c <= c' -> snapshot_at done data c `prefix_of` snapshot_at done data c'.
Proof.
  intros Hc. unfold snapshot_at. apply prefix_app.
  replace (take (Z.to_nat c) data)
    with (take (Z.to_nat c) (take (Z.to_nat c') data)).
  - rewrite fmap_take. apply prefix_take.
  - rewrite take_take. f_equal. lia.
Qed.

Lemma sorted_lookup {A : Type} (R : A -> A -> Prop) (l : list A) :
  StronglySorted R l ->
  forall (i j : nat) (a b : A),
    (i < j)%nat -> l !! i = Some a -> l !! j = Some b -> R a b.
Proof.
  induction 1 as [ | x l Hl IH Hx]; intros i j a b Hij Hi Hj.
  - by rewrite lookup_nil in Hi.
  - destruct j as [ | j]; [lia | ]. destruct i as [ | i]; simpl in *.
    + injection Hi as <-. rewrite Forall_forall in Hx.
      apply Hx. by eapply list_elem_of_lookup_2.
    + apply (IH i j); [lia | done | done].
Qed.

(** The counter values at which a run writes the checkpoint never decrease. *)
Lemma write_counts_sorted (k : nat) (ce : Z) (final : list Z) :
  (final = [] \/ final = [Z.of_nat k]) ->
  StronglySorted Z.le (flush_counts k 0 ce ++ final).
Proof.
  intros Hfinal. apply StronglySorted_app. split; [ | split].
  - intros c1 c2 Hc1%flush_counts_bounds Hc2.
    destruct Hfinal as [-> | ->]; [by apply elem_of_nil in Hc2 | ].
    apply list_elem_of_singleton in Hc2 as ->. lia.
  - pose proof (flush_counts_sorted k 0 ce) as Hs.
    induction Hs as [ | c l Hl IH Hc]; constructor; [done | ].
    eapply Forall_impl; [exact Hc | ]. simpl. lia.
  - destruct Hfinal as [-> | ->]; repeat constructor.
Qed.

(** C10. Monotone snapshots within a run: of any two checkpoint writes one
    [record] call performs, the list written first is a prefix of the list
    written later, the final write included; and the Done-List the call
    leaves extends the one it found. *)
Theorem snapshots_monotone func ce sp w :
  exists r w' new,
    record func ce sp w = (r, w')
    /\ events w' = events w ++ new
    /\ progress (self w) `prefix_of` progress (self w')
    /\ forall (i j : nat) (s t : list bytes),
         (i < j)%nat ->
         (snd <$> writes new) !! i = Some s ->
         (snd <$> writes new) !! j = Some t ->
         s `prefix_of` t.
Proof.
  destruct (check_progress_inv w)
    as (r & w1 & newc & Hcheck & Hev & Hwr & _ & _ & Hpre & Hpath & _).
  destruct r as [[ | x rest] | e].
  - eexists _, _, (newc ++ [nothing_to_update]).
    split; [by apply (record_nothing _ _ _ _ w1) | ]. simpl.
    rewrite Hev, <- app_assoc. repeat split; try done.
    rewrite writes_app, Hwr. simpl. intros i j s t _ Hi. by rewrite lookup_nil in Hi.
  - destruct (Hpath eq_refl) as [p Hp].
    destruct (run_func func (x :: rest) (user w1)) as [[rs u'] oe] eqn:Hrun.
    destruct (record_work func ce sp w w1 _ p rs u' oe Hcheck)
      as (new & Hrec & _ & Hwrites); [done | done | done | ].
    pose proof (run_func_length _ _ _ _ _ _ Hrun) as Hlen.
    eexists _, _, (newc ++ new). split; [exact Hrec | ]. simpl.
    rewrite Hev, <- app_assoc. split; [done | ]. split.
    { etrans; [exact Hpre | ]. unfold snapshot_at. by apply prefix_app_r. }
    rewrite writes_app, Hwr, Hwrites. simpl. rewrite <- list_fmap_compose.
    intros i j s t Hij Hi Hj.
    apply list_lookup_fmap_Some in Hi as (ci & -> & Hi).
    apply list_lookup_fmap_Some in Hj as (cj & -> & Hj). simpl.
    apply snapshot_at_mono.
    refine (sorted_lookup Z.le _ _ i j ci cj Hij Hi Hj).
    apply write_counts_sorted. destruct oe; [by left | right].
    by rewrite Hlen.
  - eexists _, _, newc. split; [by apply record_raise | ].
    repeat split; try done.
    rewrite Hwr. simpl. intros i j s t _ Hi. by rewrite lookup_nil in Hi.
Qed.

Lemma events_started w : events (started w) = events w ++ [EvTouch (fresh_path w)].
Proof. reflexivity. Qed.

Lemma events_armed w : events (armed w) = events w.
Proof. reflexivity. Qed.

Lemma events_completed w (x : pyobj) (u : W) :
  events (completed w x u) = events w ++ [EvCall x; EvAppend (_encode x)].
Proof. reflexivity. Qed.

Lemma events_log w (evs : list event) : events (log w evs) = events w ++ evs.
Proof. reflexivity. Qed.

Lemma events_flushed w (p : string) :
  events (flushed w p) = events w ++ [EvWrite p (progress (self w))].
Proof. reflexivity. Qed.

Lemma progress_started w : progress (self (started w)) = progress (self w).
Proof. reflexivity. Qed.

Lemma self_armed w : self (armed w) = self w.
Proof. reflexivity. Qed.

Lemma progress_completed w (x : pyobj) (u : W) :
  progress (self (completed w x u)) = progress (self w) ++ [_encode x].
Proof. reflexivity. Qed.

Lemma self_log w (evs : list event) : self (log w evs) = self w.
Proof. reflexivity. Qed.

Lemma self_flushed w (p : string) : self (flushed w p) = self w.
Proof. reflexivity. Qed.

Lemma fs_flushed w (p : string) :
  fs (flushed w p) = <[p := blob (progress (self w))]> (fs w).
Proof. reflexivity. Qed.

Create Rewrite HintDb world.

#[local] Hint Rewrite events_started events_armed events_completed events_log events_flushed
  progress_started self_armed progress_completed self_log self_flushed fs_flushed
  : world.

Lemma filter_not_in_nil (data : list pyobj) :
  filter (fun x => _encode x ∉ []) data = data.
Proof.
  induction data as [ | x data IH]; [done | ].
  rewrite filter_cons_True; [by rewrite IH | by intros ?%elem_of_nil].
Qed.


(** C5, amended. Flush cadence: in a run with
    [checkpoint_every = F >= 1] over a non-empty Work Set that the callback
    gets through, the periodic writes come exactly when the count of
    completed items, taken from the start of the run, is [F], [2 * F],
    [4 * F], ... ([F * 2^t], as far as the Work Set reaches), each holding
    the Done-List as of that count, so the second comes [F] items after
    the first and the third [2 * F] items after the second; and one more
    write, of the whole Done-List, follows the last item. *)
Theorem flush_cadence func F sp w w1 (work rs : list pyobj) (u' : W) :
  1 <= F ->
  check_progress w = (Ok work, w1) ->
  work <> [] ->
  run_func func work (user w1) = (rs, u', None) ->
  exists w' new p counts,
    record func F sp w = (Ok (Some rs), w')
    /\ events w' = events w1 ++ new
    /\ writes new
       = (fun c => (p, snapshot_at (progress (self w1)) work c))
           <$> (counts ++ [Z.of_nat (length work)])
    /\ StronglySorted Z.lt counts
    /\ (forall c, c ∈ counts <->
                  1 <= c <= Z.of_nat (length work)
                  /\ exists t : nat, c = F * 2 ^ Z.of_nat t)
    /\ (4 * F <= Z.of_nat (length work) -> take 3 counts = [F; 2 * F; 4 * F]).
Proof.
  intros HF Hcheck Hwork Hrun.
  destruct (check_progress_inv w)
    as (r & w1' & _ & Hcheck' & _ & _ & _ & _ & _ & Hpath & _).
  rewrite Hcheck in Hcheck'. injection Hcheck' as <- <-.
  destruct (Hpath eq_refl) as [p Hp].
  destruct (record_work func F sp w w1 work p rs u' None Hcheck Hwork Hp Hrun)
    as (new & Hrec & _ & Hwrites).
  pose proof (run_func_length _ _ _ _ _ _ Hrun) as Hlen. simpl in Hlen.
  rewrite Hlen in Hwrites.
  eexists _, new, p, (flush_counts (length work) 0 F).
  split; [exact Hrec | ]. simpl.
  split; [reflexivity | ]. split; [exact Hwrites | ].
  split; [apply flush_counts_sorted | ]. split.
  - intros c. rewrite flush_counts_spec by lia. split.
    + intros (Hc & t & ->). split; [lia | by exists t].
    + intros (Hc & t & ->). split; [lia | by exists t].
  - intros H4. by apply flush_counts_first_three.
Qed.

(** [==] holds between a value and itself. *)
Lemma py_eq_refl (a : pyobj) : py_eq a a = true.
Proof.
  induction a as [ | b | z | s | b | l IH] using RefLib.pyobj_nested_ind; simpl.
  - reflexivity.
  - apply Z.eqb_refl.
  - apply Z.eqb_refl.
  - by apply bool_decide_eq_true.
  - by apply bool_decide_eq_true.
  - induction IH as [ | x l Hx _ IHl]; [reflexivity | ].
    by rewrite Hx, IHl.
Qed.

(** Equal scalars of one type are the same value. *)
Lemma py_eq_scalar (a b : pyobj) :
  scalar a = true -> scalar b = true -> py_eq a b = true ->
  py_type a = py_type b -> a = b.
Proof.
  destruct a as [ | x | x | x | x | x], b as [ | y | y | y | y | y];
    simpl; try discriminate; intros _ _ Heq _.
  - reflexivity.
  - apply Z.eqb_eq in Heq. f_equal. by destruct x, y.
  - apply Z.eqb_eq in Heq. by f_equal.
  - apply bool_decide_eq_true in Heq. by f_equal.
  - apply bool_decide_eq_true in Heq. by f_equal.
Qed.


End Claims.

(** ** Beyond the claims *)

Section Beyond.
Context {lib : PyLib} {W : Type}.
Implicit Types (w : world W) (func : pyobj -> W -> result pyobj * W).

Lemma append_not_empty (s t : string) : t <> "" -> s +:+ t <> "".
Proof. intros Ht. destruct s; [exact Ht | discriminate]. Qed.

Lemma fresh_path_not_empty w : fresh_path w <> "".
Proof. unfold fresh_path. by apply append_not_empty. Qed.

Lemma effective_path_truthy w :
  truthy_path (Some (effective_path w)) = Some (effective_path w).
Proof.
  apply truthy_path_Some. split; [done | ]. unfold effective_path.
  destruct (truthy_path (ckpt_file (self w))) as [p | ] eqn:Hp; simpl.
  - by apply truthy_path_Some in Hp as [_ ?].
  - apply fresh_path_not_empty.
Qed.

(** The first half of [check_progress], by cases: what it returns, the
    path it leaves set and the files it leaves alone. *)
Lemma locate_checkpoint_frame w :
  exists r w1,
    locate_checkpoint w = (r, w1)
    /\ input_data (self w1) = input_data (self w)
    /\ user w1 = user w
    /\ (raised r = None -> ckpt_file (self w1) = Some (effective_path w))
    /\ (forall q c, fs w !! q = Some c -> fs w1 !! q = Some c)
    /\ (forall q, q <> effective_path w -> fs w1 !! q = fs w !! q)
    /\ (truthy_path (ckpt_file (self w)) = None -> r = Ok tt /\ w1 = started w).
Proof.
  unfold effective_path.
  destruct (truthy_path (ckpt_file (self w))) as [p | ] eqn:Hp; simpl.
  - destruct (fs w !! p) as [raw | ] eqn:Hfs.
    + destruct (locate_checkpoint_existing w p raw Hp Hfs)
        as [(entries & ->) | (e & He & ->)].
      * eexists _, _. split; [reflexivity | ]. simpl.
        apply truthy_path_Some in Hp as [Hp _]. by repeat split.
      * eexists _, _. split; [reflexivity | ]. by repeat split.
    + rewrite (locate_checkpoint_missing w p Hp Hfs).
      eexists _, _. split; [reflexivity | ]. by repeat split.
  - rewrite (locate_checkpoint_fresh w Hp).
    eexists _, _. split; [reflexivity | ]. simpl.
    repeat split; try done.
    + intros q c Hq. destruct (fs w !! fresh_path w) eqn:Hf; [done | ].
      rewrite lookup_insert_ne; [done | ]. by intros <-; rewrite Hf in Hq.
    + intros q Hq. destruct (fs w !! fresh_path w); [done | ].
      by rewrite lookup_insert_ne.
Qed.

(** [check_progress] on an in-memory input: the first half, then the
    filter against the Done-List as the first half left it. *)
Lemma check_progress_iter w (data : list pyobj) :
  input_data (self w) = InputIter data ->
  exists r w1,
    locate_checkpoint w = (r, w1)
    /\ check_progress w
       = (match r with
          | Ok _ => Ok (filter (fun x => _encode x ∉ progress (self w1)) data)
          | Raise e => Raise e
          end, w1).
Proof.
  intros Hin.
  destruct (locate_checkpoint_frame w) as (r & w1 & Hloc & Hin1 & _).
  exists r, w1. split; [exact Hloc | ].
  rewrite check_progress_split. unfold bind at 1. rewrite Hloc.
  destruct r as [[] | e]; [ | done].
  unfold remaining. run. by rewrite Hin1, Hin.
Qed.

(** What every run of [check_progress] leaves of the files and the object. *)
Lemma check_progress_frame w :
  exists r w1,
    check_progress w = (r, w1)
    /\ input_data (self w1) = input_data (self w)
    /\ user w1 = user w
    /\ (raised r = None -> ckpt_file (self w1) = Some (effective_path w))
    /\ (forall q c, fs w !! q = Some c -> fs w1 !! q = Some c)
    /\ (forall q, q <> effective_path w -> fs w1 !! q = fs w !! q).
Proof.
  destruct (locate_checkpoint_frame w)
    as (r0 & w1 & Hloc & Hin & Hu & Hp & Hkeep & Hother & _).
  rewrite check_progress_split. unfold bind at 1. rewrite Hloc.
  destruct r0 as [[] | e].
  - destruct (remaining_inv w1) as (r & -> & _). exists r, w1.
    split; [done | ]. repeat split; try done. intros _. by apply Hp.
  - exists (Raise e), w1. by repeat split.
Qed.

Lemma apply_writes_other (p q : string) (g : Z -> list bytes) (cs : list Z)
    (f : gmap string bytes) :
  q <> p -> apply_writes ((fun c => (p, g c)) <$> cs) f !! q = f !! q.
Proof.
  intros Hq. revert f. induction cs as [ | c cs IH]; intros f; [done | ].
  simpl. rewrite IH. by apply lookup_insert_ne.
Qed.

Lemma apply_writes_last (p : string) (g : Z -> list bytes) (cs : list Z)
    (f : gmap string bytes) :
  apply_writes ((fun c => (p, g c)) <$> cs) f !! p
  = match last cs with
    | Some c => Some (blob (g c))
    | None => f !! p
    end.
Proof.
  revert f. induction cs as [ | c cs IH]; intros f; [done | ].
  change (apply_writes ((fun c => (p, g c)) <$> cs) (<[p := blob (g c)]> f) !! p
          = match last (c :: cs) with
            | Some c => Some (blob (g c))
            | None => f !! p
            end).
  rewrite IH. destruct cs as [ | c' cs]; [apply lookup_insert_eq | ].
  rewrite last_cons_cons.
  destruct (last (c' :: cs)) eqn:Hl; [done | by apply last_None in Hl].
Qed.

(** X1. The Work Set is the input filtered against the in-memory Done-List
    as it stands after the checkpoint was loaded: whenever [check_progress]
    returns on an in-memory input, it returns, in input order, exactly the
    items whose marker is not in [self.progress]; the Done-List it found is
    kept as a prefix, so an item whose marker was already there is never
    returned. *)
Theorem work_set_is_filter w w1 (data work : list pyobj) :
  input_data (self w) = InputIter data ->
  check_progress w = (Ok work, w1) ->
  work = filter (fun x => _encode x ∉ progress (self w1)) data
  /\ progress (self w) `prefix_of` progress (self w1)
  /\ forall x, _encode x ∈ progress (self w) -> x ∉ work.
Proof.
  intros Hin Hcheck.
  destruct (check_progress_iter w data Hin) as (r & w1' & _ & Hcheck').
  rewrite Hcheck in Hcheck'. destruct r as [[] | e]; [ | done].
  injection Hcheck' as -> <-.
  destruct (check_progress_inv w)
    as (r & w1' & _ & Hinv & _ & _ & _ & _ & Hpre & _).
  rewrite Hcheck in Hinv. injection Hinv as <- <-.
  split; [done | ]. split; [done | ].
  intros x Hx [Hnot _]%list_elem_of_filter. apply Hnot.
  destruct Hpre as [k ->]. apply elem_of_app. by left.
Qed.

(** X2. With no checkpoint path set, [check_progress] always ends in the same
    world, whether it returns or raises: the made-up path is set on the
    object and a file is at that path, empty if it was not there and as
    it was if it was.  With [input_data] never set it raises [TypeError]
    after having done so. *)
Theorem placeholder_left_behind w :
  truthy_path (ckpt_file (self w)) = None ->
  exists r,
    check_progress w = (r, started w)
    /\ ckpt_file (self (started w)) = Some (fresh_path w)
    /\ fs (started w) !! fresh_path w = Some (default [] (fs w !! fresh_path w))
    /\ (input_data (self w) = InputNone -> r = Raise not_iterable).
Proof.
  intros Hp. rewrite check_progress_split. unfold bind at 1.
  rewrite (locate_checkpoint_fresh w Hp).
  destruct (remaining_inv (started w)) as (r & Hrem & _). exists r.
  split; [done | ]. split; [done | ]. split.
  - simpl. destruct (fs w !! fresh_path w) eqn:Hf; simpl; [done | ].
    apply lookup_insert_eq.
  - intros Hin. revert Hrem. unfold remaining. run. rewrite Hin.
    by intros [= <-].
Qed.

(** X3. [record] changes no file but the checkpoint file: whatever the
    callback, the interval and the outcome, every other path holds after
    the call what it held before. *)
Theorem record_touches_only_checkpoint func F sp w (q : string) :
  q <> effective_path w ->
  fs (snd (record func F sp w)) !! q = fs w !! q.
Proof.
  intros Hq.
  destruct (check_progress_frame w)
    as (r & w1 & Hcheck & _ & _ & Hp & _ & Hother).
  destruct r as [[ | x rest] | e].
  - rewrite (record_nothing _ _ _ _ _ Hcheck). simpl. by apply Hother.
  - destruct (run_func func (x :: rest) (user w1)) as [[rs u'] oe] eqn:Hrun.
    destruct (record_work func F sp w w1 _ (effective_path w) rs u' oe Hcheck) as
      (new & -> & _ & Hwrites); [done | by apply Hp | done | ].
    simpl. rewrite Hwrites, apply_writes_other by done. by apply Hother.
  - rewrite (record_raise _ _ _ _ _ _ Hcheck). simpl. by apply Hother.
Qed.

Lemma run_func_raises_nonempty func (work rs : list pyobj) (u u' : W) (e : exn) :
  run_func func work u = (rs, u', Some e) -> work <> [].
Proof. by destruct work. Qed.

Lemma snapshot_at_all (done : list bytes) (data : list pyobj) :
  snapshot_at done data (Z.of_nat (length data)) = done ++ (_encode <$> data).
Proof. unfold snapshot_at. by rewrite Nat2Z.id, firstn_all. Qed.

(** X4. A callback exception is not followed by a write.  When the callback
    raises after some items, [record] ends with the Done-List holding the
    markers of all of them, but the checkpoint file holds the Done-List of
    the last periodic write of the run, and is as [check_progress] left
    it when the run had no periodic write yet. *)
Theorem failure_keeps_last_flush func F sp w w1 (work rs : list pyobj) (u' : W)
    (e : exn) :
  check_progress w = (Ok work, w1) ->
  run_func func work (user w1) = (rs, u', Some e) ->
  exists w',
    record func F sp w = (Raise e, w')
    /\ progress (self w')
       = snapshot_at (progress (self w1)) work (Z.of_nat (length rs))
    /\ fs w' !! effective_path w
       = match last (flush_counts (length rs) 0 F) with
         | Some c => Some (blob (snapshot_at (progress (self w1)) work c))
         | None => fs w1 !! effective_path w
         end.
Proof.
  intros Hcheck Hrun.
  destruct (check_progress_frame w) as (r & w1' & Hcheck' & _ & _ & Hp & _).
  rewrite Hcheck in Hcheck'. injection Hcheck' as <- <-.
  destruct (record_work func F sp w w1 work (effective_path w) rs u' (Some e)
              Hcheck (run_func_raises_nonempty _ _ _ _ _ _ Hrun) (Hp eq_refl) Hrun)
    as (new & Hrec & _ & Hwrites).
  eexists. split; [exact Hrec | ]. simpl. split; [done | ].
  by rewrite Hwrites, app_nil_r, apply_writes_last.
Qed.

(** X5. A run that completes leaves the file in step with memory: the
    Done-List is the one the loop started from followed by the markers of
    the whole Work Set, the checkpoint file holds exactly that list, and
    [ckpt_io] reads it back, given that gzip and pickle decode what they
    encode. *)
Theorem completion_syncs_file func F sp w w1 (work rs : list pyobj) (u' : W) :
  pickle_roundtrip lib -> gzip_roundtrip lib ->
  check_progress w = (Ok work, w1) ->
  work <> [] ->
  run_func func work (user w1) = (rs, u', None) ->
  exists w',
    record func F sp w = (Ok (Some rs), w')
    /\ progress (self w') = progress (self w1) ++ (_encode <$> work)
    /\ fs w' !! effective_path w = Some (blob (progress (self w')))
    /\ fst (ckpt_io "read" w')
       = Ok (Some (PyList (PyBytes <$> progress (self w')))).
Proof.
  intros Hpk Hgz Hcheck Hwork Hrun.
  destruct (check_progress_frame w) as (r & w1' & Hcheck' & _ & _ & Hp & _).
  rewrite Hcheck in Hcheck'. injection Hcheck' as <- <-.
  destruct (record_work func F sp w w1 work (effective_path w) rs u' None
              Hcheck Hwork (Hp eq_refl) Hrun)
    as (new & Hrec & _ & Hwrites).
  pose proof (run_func_length _ _ _ _ _ _ Hrun) as Hlen. simpl in Hlen.
  eexists. split; [exact Hrec | ]. simpl. rewrite Hlen, snapshot_at_all.
  assert (Hfs : apply_writes (writes new) (fs w1) !! effective_path w
                = Some (blob (progress (self w1) ++ (_encode <$> work)))).
  { by rewrite Hwrites, apply_writes_last, last_snoc, snapshot_at_all. }
  split; [done | ]. split; [exact Hfs | ].
  by erewrite read_back.
Qed.

Lemma run_func_pure (g : pyobj -> pyobj) (data : list pyobj) (u : W) :
  run_func (pure_callback g) data u = (g <$> data, u, None).
Proof. induction data as [ | x data IH]; simpl; by rewrite ?IH. Qed.

(** X6. With a callback that keeps no state and always returns, [record]
    is a map over the Work Set: it returns the callback's values in Work
    Set order, one per item. *)
Theorem record_maps_pure_callback (g : pyobj -> pyobj) F sp w w1 (work : list pyobj) :
  check_progress w = (Ok work, w1) ->
  work <> [] ->
  exists w',
    record (pure_callback g) F sp w = (Ok (Some (g <$> work)), w')
    /\ user w' = user w.
Proof.
  intros Hcheck Hwork.
  destruct (check_progress_frame w) as (r & w1' & Hcheck' & _ & Hu & Hp & _).
  rewrite Hcheck in Hcheck'. injection Hcheck' as <- <-.
  destruct (record_work (pure_callback g) F sp w w1 work (effective_path w)
              (g <$> work) (user w1) None Hcheck Hwork (Hp eq_refl)
              (run_func_pure g work (user w1)))
    as (new & Hrec & _).
  eexists. split; [exact Hrec | ]. exact Hu.
Qed.

(** X7. A non-positive [checkpoint_every], or one above the size of the Work
    Set, gives no periodic write: a run that completes then writes the
    checkpoint exactly once, at the end, with the whole Done-List. *)
Theorem no_periodic_flush func F sp w w1 (work rs : list pyobj) (u' : W) :
  (F <= 0 \/ Z.of_nat (length work) < F) ->
  check_progress w = (Ok work, w1) ->
  work <> [] ->
  run_func func work (user w1) = (rs, u', None) ->
  exists w' new,
    record func F sp w = (Ok (Some rs), w')
    /\ events w' = events w1 ++ new
    /\ writes new
       = [(effective_path w, progress (self w1) ++ (_encode <$> work))].
Proof.
  intros HF Hcheck Hwork Hrun.
  destruct (check_progress_frame w) as (r & w1' & Hcheck' & _ & _ & Hp & _).
  rewrite Hcheck in Hcheck'. injection Hcheck' as <- <-.
  destruct (record_work func F sp w w1 work (effective_path w) rs u' None
              Hcheck Hwork (Hp eq_refl) Hrun)
    as (new & Hrec & _ & Hwrites).
  pose proof (run_func_length _ _ _ _ _ _ Hrun) as Hlen. simpl in Hlen.
  eexists _, new. split; [exact Hrec | ]. split; [done | ].
  rewrite Hwrites, Hlen, flush_counts_none by lia. simpl.
  by rewrite snapshot_at_all.
Qed.

Lemma flush_counts_length len : forall n ce,
  0 <= n < ce ->
  flush_counts len n ce = []
  \/ ce * 2 ^ (Z.of_nat (length (flush_counts len n ce)) - 1) <= n + Z.of_nat len.
Proof.
  induction len as [ | len IH]; intros n ce Hn; simpl; [by left | ].
  destruct (Z.eqb_spec (n + 1) ce) as [Heq | Hne].
  - right. destruct (IH (n + 1) (ce + ce)) as [-> | Hle]; [lia | simpl; lia | ].
    simpl length.
    destruct (flush_counts len (n + 1) (ce + ce)) as [ | c tl] eqn:Htl;
      [simpl; lia | ].
    simpl length in *.
    replace (Z.of_nat (S (S (length tl))) - 1)
      with (Z.succ (Z.of_nat (S (length tl)) - 1)) by lia.
    rewrite Z.pow_succ_r by lia. lia.
  - destruct (IH (n + 1) ce) as [-> | Hle]; [lia | by left | right; lia].
Qed.

(** X8. The number of periodic writes grows with the logarithm of the size
    of the Work Set: a run with [checkpoint_every = F >= 1] over [M] items
    that completes makes [k] periodic writes and one final write, where
    [k = 0] or [F * 2^(k-1) <= M]. *)
Theorem flush_count_logarithmic func F sp w w1 (work rs : list pyobj) (u' : W) :
  1 <= F ->
  check_progress w = (Ok work, w1) ->
  work <> [] ->
  run_func func work (user w1) = (rs, u', None) ->
  exists w' new (k : nat),
    record func F sp w = (Ok (Some rs), w')
    /\ events w' = events w1 ++ new
    /\ length (writes new) = S k
    /\ (k = 0%nat \/ F * 2 ^ (Z.of_nat k - 1) <= Z.of_nat (length work)).
Proof.
  intros HF Hcheck Hwork Hrun.
  destruct (check_progress_frame w) as (r & w1' & Hcheck' & _ & _ & Hp & _).
  rewrite Hcheck in Hcheck'. injection Hcheck' as <- <-.
  destruct (record_work func F sp w w1 work (effective_path w) rs u' None
              Hcheck Hwork (Hp eq_refl) Hrun)
    as (new & Hrec & _ & Hwrites).
  pose proof (run_func_length _ _ _ _ _ _ Hrun) as Hlen. simpl in Hlen.
  eexists _, new, (length (flush_counts (length work) 0 F)).
  split; [exact Hrec | ]. split; [done | ]. split.
  - rewrite Hwrites, Hlen, length_fmap, length_app. simpl. lia.
  - destruct (flush_counts_length (length work) 0 F) as [-> | Hle];
      [lia | by left | right; lia].
Qed.

Lemma filter_none {A : Type} (P : A -> Prop) `{!forall x, Decision (P x)} (l : list A) :
  (forall x, x ∈ l -> ~ P x) -> filter P l = [].
Proof.
  induction l as [ | x l IH]; intros Hl; [done | ].
  rewrite filter_cons_False by (apply Hl; left).
  apply IH. intros y Hy. apply Hl. by right.
Qed.

(** X9. A second [record] on the same object does nothing: after a run that
    completed, another call, with any callback and interval, reloads the
    file just written, finds every input item's marker in the in-memory
    Done-List, calls nothing, writes nothing and returns [None]; the
    Done-List grows by the re-encoded copy of each marker it held. *)
Theorem second_record_is_noop func func' F F' sp sp' w w1
    (data work rs : list pyobj) (u' : W) :
  pickle_roundtrip lib -> gzip_roundtrip lib ->
  input_data (self w) = InputIter data ->
  check_progress w = (Ok work, w1) ->
  work <> [] ->
  run_func func work (user w1) = (rs, u', None) ->
  exists w' w'' new,
    record func F sp w = (Ok (Some rs), w')
    /\ record func' F' sp' w' = (Ok None, w'')
    /\ events w'' = events w' ++ new
    /\ calls new = [] /\ writes new = []
    /\ progress (self w'')
       = progress (self w') ++ (_encode <$> (PyBytes <$> progress (self w'))).
Proof.
  intros Hpk Hgz Hin Hcheck Hwork Hrun.
  destruct (check_progress_frame w) as (r & w0 & Hcheck' & Hin1 & _ & Hp & _).
  rewrite Hcheck in Hcheck'. injection Hcheck' as <- <-.
  destruct (check_progress_iter w data Hin) as (r & w0 & _ & Hiter).
  rewrite Hcheck in Hiter. destruct r as [[] | e]; [ | done].
  injection Hiter as Hfilter <-.
  set (p := effective_path w) in *.
  destruct (record_work func F sp w w1 work p rs u' None
              Hcheck Hwork (Hp eq_refl) Hrun)
    as (new & Hrec & _ & Hwrites).
  pose proof (run_func_length _ _ _ _ _ _ Hrun) as Hlen. simpl in Hlen.
  rewrite Hlen, snapshot_at_all in Hrec.
  set (done := progress (self w1) ++ (_encode <$> work)) in *.
  set (w' := mkWorld (mkCheckpoint (input_data (self w1)) (Some p) done)
               (apply_writes (writes new) (fs w1)) (clock w1) true u'
               (events w1 ++ new)) in *.
  assert (Hfs : fs w' !! p = Some (blob done)).
  { simpl. by rewrite Hwrites, apply_writes_last, last_snoc, snapshot_at_all. }
  assert (Hin' : input_data (self w') = InputIter data) by (simpl; congruence).
  assert (Hnone : filter (fun x => _encode x ∉ progress (self w')
                                     ++ (_encode <$> (PyBytes <$> done))) data = []).
  { apply filter_none. intros x Hx Hnot. apply Hnot. apply elem_of_app. left.
    simpl. unfold done. apply elem_of_app.
    destruct (decide (_encode x ∈ progress (self w1))) as [Hdone | Hdone];
      [by left | right].
    apply list_elem_of_fmap_2. rewrite Hfilter. by apply list_elem_of_filter. }
  pose proof (check_progress_reload w' p done data Hpk Hgz
                (effective_path_truthy w) Hfs Hin') as Hcheck2.
  rewrite Hnone in Hcheck2.
  eexists w', _, _. split; [exact Hrec | ].
  split; [by apply (record_nothing _ _ _ _ _ Hcheck2) | ].
  simpl. rewrite <- !app_assoc. split; [reflexivity | ].
  split; [by rewrite calls_app; simpl; rewrite calls_app, calls_EvAppend | ].
  split; [by rewrite writes_app; simpl; rewrite writes_app, writes_EvAppend | done].
Qed.

(** X10. What resuming excludes.  When the checkpoint file is the gzip of the
    pickle of a list of scalars ([None], [bool], [int], [str], [bytes]),
    [check_progress] on a new object drops from the input the items that
    are one of them, in type and content, keeps the others in order, leaves
    the markers of the list's elements as Done-List and reports the length
    of the list as skipped. *)
Theorem resume_excludes_loaded_values w (p : string) (entries data : list pyobj) :
  pickle_roundtrip lib -> gzip_roundtrip lib -> b64_injective lib ->
  truthy_path (ckpt_file (self w)) = Some p ->
  progress (self w) = [] ->
  Forall (fun e => scalar e = true) entries ->
  fs w !! p = Some (gzip_compress (pickle_dumps (PyList entries))) ->
  input_data (self w) = InputIter data ->
  exists w1,
    check_progress w = (Ok (filter (fun x => x ∉ entries) data), w1)
    /\ progress (self w1) = _encode <$> entries
    /\ last (events w1) = Some (resuming p (length entries)).
Proof.
  intros Hpk Hgz Hb64 Hp Hpr _ Hfs Hin.
  exists (resumed w p entries).
  rewrite (check_progress_resume w p _ _ (PyList entries) entries data
             Hp Hfs (Hgz _) (Hpk _) eq_refl Hin), Hpr.
  split; [ | split].
  - do 2 f_equal. apply list_filter_iff. intros x.
    pose proof (_encode_inj Hpk Hb64) as Hinj. simpl.
    by rewrite list_elem_of_fmap_inj.
  - simpl. by rewrite Hpr.
  - unfold resumed. cbn [events]. by rewrite !app_assoc, last_snoc.
Qed.

(** X11. A checkpoint file that does not decode stops the run before any
    work: when the file at the path set is not gzip, or not a pickle, or
    unpickles to something that cannot be iterated, [record] raises the
    matching error having only read the file; no callback is called, the
    Done-List and the files are as they were. *)
Theorem corrupt_checkpoint_aborts func F sp w (p : string) (raw : bytes) (e : exn) :
  truthy_path (ckpt_file (self w)) = Some p ->
  fs w !! p = Some raw ->
  decode_error raw = Some e ->
  record func F sp w = (Raise e, log w [EvRead p]).
Proof.
  intros Hp Hfs Herr. apply record_raise.
  rewrite check_progress_split. unfold bind at 1, locate_checkpoint. run.
  rewrite Hp, Hfs. apply truthy_path_Some in Hp as [Hp _].
  unfold ckpt_io. run. rewrite Hp. simpl. rewrite Hfs. simpl.
  unfold decode_error in Herr.
  destruct (gzip_decompress raw) as [pickled | ]; simpl;
    [ | by injection Herr as <-].
  destruct (pickle_loads pickled) as [loaded | ]; simpl;
    [ | by injection Herr as <-].
  destruct (py_iter loaded); [done | by injection Herr as <-].
Qed.

Lemma keyboard_interrupt_handler_run (sig : Z) w (p : string) :
  ckpt_file (self w) = Some p ->
  keyboard_interrupt_handler sig w
  = (Raise (SystemExit 1), flushed (log w (interrupt_lines sig (Some p))) p).
Proof.
  intros Hp. unfold keyboard_interrupt_handler.
  unfold bind at 1 2 3, get, print, emit. simpl. rewrite Hp. unfold bind.
  erewrite (ckpt_io_write_run _ p) by exact Hp.
  unfold flushed, log, interrupt_lines, raise. simpl. by rewrite <- !app_assoc.
Qed.


(** The loop over a list cut in two: the second part starts in the world,
    with the counter and with the threshold the first part ends with. *)
Lemma record_loop_app func (pre post : list pyobj) : forall n ce results w p,
  ckpt_file (self w) = Some p ->
  record_loop func (pre ++ post) n ce results w
  = match record_loop func pre n ce results w with
    | (Ok rs, wk) =>
        record_loop func post (n + Z.of_nat (length pre))
          (threshold_after (length pre) n ce) rs wk
    | (Raise e, wk) => (Raise e, wk)
    end.
Proof.
  induction pre as [ | x pre IH]; intros n ce results w p Hp.
  - simpl. unfold ret. by rewrite Z.add_0_r.
  - change ((x :: pre) ++ post) with (x :: (pre ++ post)).
    destruct (func x (user w)) as [[r | e] u] eqn:Hf.
    + rewrite !(record_loop_ok _ _ _ _ _ _ _ p r u Hp Hf). simpl threshold_after.
      replace (n + Z.of_nat (length (x :: pre)))
        with (n + 1 + Z.of_nat (length pre)) by (simpl length; lia).
      destruct (n + 1 =? ce); by apply (IH _ _ _ _ p).
    + by rewrite !(record_loop_raise _ _ _ _ _ _ _ e u Hf).
Qed.


(** X14. [read_data] only reads, and it raises its "format is not supported"
    error exactly when the input is a path whose suffix, in lower case, is
    none of [.7z], [.7zip], [.json], [.gz], [.gzip]. *)
Theorem unsupported_format_exactly w :
  snd (read_data w) = w
  /\ (raised (fst (read_data w)) = Some unsupported_format <->
      exists path, input_data (self w) = InputPath path
                   /\ lower (path_suffix path) ∉ known_suffixes).
Proof.
  destruct (read_data_inv w) as (r & Hread & _). rewrite Hread.
  split; [done | ]. simpl. revert Hread. unfold read_data, json_of. run.
  destruct (input_data (self w)) as [ | path | l]; simpl.
  - intros [= <-]. split; [done | by intros (? & [=] & _)].
  - unfold known_suffixes.
    case_bool_decide as H7z.
    { intros Hread. split; [ | intros (? & [= <-] & Hno); set_solver].
      intros Hr. revert Hread.
      repeat (case_match; simplify_eq/=); intros [= <-]; done. }
    case_decide as Hjson.
    { intros Hread. split; [ | intros (? & [= <-] & Hno); set_solver].
      intros Hr. revert Hread.
      repeat (case_match; simplify_eq/=); intros [= <-]; done. }
    case_bool_decide as Hgz.
    { intros Hread. split; [ | intros (? & [= <-] & Hno); set_solver].
      intros Hr. revert Hread.
      repeat (case_match; simplify_eq/=); intros [= <-]; done. }
    intros [= <-]. split; [ | done]. intros _. exists path. split; [done | ].
    set_solver.
  - intros [= <-]. split; [done | by intros (? & [=] & _)].
Qed.

(** The first half of [check_progress] does not look at [self.input_data]. *)
Lemma locate_checkpoint_with_input w (i : input) :
  locate_checkpoint (with_input w i)
  = (fst (locate_checkpoint w), with_input (snd (locate_checkpoint w)) i).
Proof.
  destruct (truthy_path (ckpt_file (self w))) as [p | ] eqn:Hp.
  - destruct (fs w !! p) as [raw | ] eqn:Hfs.
    + unfold locate_checkpoint. run. rewrite Hp, Hfs.
      apply truthy_path_Some in Hp as [Hp _].
      unfold ckpt_io. run. rewrite Hp. simpl. rewrite Hfs. simpl.
      destruct (gzip_decompress raw) as [pickled | ]; simpl; [ | done].
      destruct (pickle_loads pickled) as [loaded | ]; simpl; [ | done].
      destruct (py_iter loaded) as [entries | ]; simpl; [ | done].
      by rewrite !load_progress_run.
    + rewrite (locate_checkpoint_missing w p Hp Hfs).
      by rewrite (locate_checkpoint_missing (with_input w i) p Hp Hfs).
  - rewrite (locate_checkpoint_fresh w Hp).
    by rewrite (locate_checkpoint_fresh (with_input w i) Hp).
Qed.

(** X15. A JSON file as input is the list it holds.  When [input_data] is the
    path of an existing [.json] file, or [.gz]/[.gzip] file of JSON, whose
    content decodes to a value that iterates as [l], [check_progress]
    returns what it returns for the in-memory input [l] and leaves the
    same world, [input_data] apart. *)
Theorem file_input_as_list w (path : string) (raw : bytes) (d : pyobj)
    (l : list pyobj) :
  input_data (self w) = InputPath path ->
  fs w !! path = Some raw ->
  (lower (path_suffix path) = ".json" /\ json_load raw = Some d
   \/ lower (path_suffix path) ∈ [".gz"; ".gzip"]
      /\ exists j, gzip_decompress raw = Some j /\ json_load j = Some d) ->
  py_iter d = Some l ->
  check_progress w
  = (fst (check_progress (with_input w (InputIter l))),
     with_input (snd (check_progress (with_input w (InputIter l)))) (InputPath path)).
Proof.
  intros Hin Hfs Hjson Hiter.
  rewrite !check_progress_split. unfold bind at 1 2 3.
  rewrite locate_checkpoint_with_input.
  destruct (locate_checkpoint_frame w) as (r0 & w1 & Hloc & Hin1 & _ & _ & Hkeep & _).
  rewrite Hloc. simpl. rewrite Hin in Hin1.
  assert (Heta : with_input (with_input w1 (InputIter l)) (InputPath path) = w1).
  { destruct w1 as [[i c pr] f k a u evs]. simpl in Hin1. by subst i. }
  destruct r0 as [[] | e]; [ | simpl; by rewrite Heta].
  assert (Hread : read_data w1 = (Ok d, w1)).
  { pose proof (Hkeep _ _ Hfs) as Hfs1.
    unfold read_data, json_of. run. rewrite Hin1. simpl.
    destruct Hjson as [[Hs Hd] | [Hgz (j & Hj & Hd)]].
    - rewrite Hs. simpl. rewrite Hfs1. simpl. by rewrite Hd.
    - apply elem_of_cons in Hgz as [Hs | Hs%list_elem_of_singleton];
        rewrite Hs; simpl; rewrite Hfs1; simpl; by rewrite Hj, Hd. }
  unfold remaining. run. rewrite Hin1. simpl. rewrite Hread, Hiter. simpl.
  by rewrite Heta.
Qed.

End Beyond.

(** ** Concrete runs

    The theorems above at concrete inputs, over the reference instance of
    the library interface and a callback without state. *)

#[local] Existing Instance RefLib.lib.

Lemma check_progress_fresh_world (data : list pyobj) :
  check_progress (fresh_world data) = (Ok data, started (fresh_world data)).
Proof.
  rewrite (check_progress_fresh (fresh_world data) data eq_refl eq_refl).
  do 2 f_equal. exact (filter_not_in_nil data).
Qed.


(** C1 with the file [run.ckpt] left by a run that completed item [1]. *)
Lemma check_progress_reencodes_markers_witness :
  let w := resuming_world [PyInt 1; PyInt 2; PyInt 3] "run.ckpt"
             (blob [_encode (PyInt 1)]) in
  pickle_roundtrip RefLib.lib /\ gzip_roundtrip RefLib.lib /\ b64_injective RefLib.lib
  /\ truthy_path (ckpt_file (self w)) = Some "run.ckpt"
  /\ progress (self w) = []
  /\ input_data (self w) = InputIter [PyInt 1; PyInt 2; PyInt 3]
  /\ fs w !! "run.ckpt" = Some (blob [_encode (PyInt 1)])
  /\ exists w1,
       check_progress w = (Ok [PyInt 1; PyInt 2; PyInt 3], w1)
       /\ progress (self w1) = [_encode (PyBytes (_encode (PyInt 1)))]
       /\ events w1 = events w ++ [EvRead "run.ckpt";
                                    EvAppend (_encode (PyBytes (_encode (PyInt 1))));
                                    resuming "run.ckpt" 1].
Proof.
  intros w.
  assert (Hfs : fs w !! "run.ckpt" = Some (blob [_encode (PyInt 1)]))
    by apply lookup_singleton_eq.
  repeat (split; [first [exact RefLib.lib_pickle_roundtrip
                        | exact RefLib.lib_gzip_roundtrip
                        | exact RefLib.lib_b64_injective
                        | exact Hfs
                        | reflexivity] | ]).
  exact (check_progress_reencodes_markers w "run.ckpt"
           RefLib.lib_pickle_roundtrip RefLib.lib_gzip_roundtrip
           RefLib.lib_b64_injective eq_refl eq_refl eq_refl Hfs).
Defined.

(** C2 with the callback [item * 10]. *)
Lemma record_reruns_completed_item_witness :
  let w := resuming_world [PyInt 1] "run.ckpt" (blob [_encode (PyInt 1)]) in
  pickle_roundtrip RefLib.lib /\ gzip_roundtrip RefLib.lib /\ b64_injective RefLib.lib
  /\ truthy_path (ckpt_file (self w)) = Some "run.ckpt"
  /\ progress (self w) = []
  /\ input_data (self w) = InputIter [PyInt 1]
  /\ fs w !! "run.ckpt" = Some (blob [_encode (PyInt 1)])
  /\ times10 (PyInt 1) (user w) = (Ok (PyInt 10), tt)
  /\ exists w' new,
       record times10 100 true w = (Ok (Some [PyInt 10]), w')
       /\ events w' = events w ++ new
       /\ calls new = [PyInt 1]
       /\ last (writes new)
          = Some ("run.ckpt",
                  [_encode (PyBytes (_encode (PyInt 1))); _encode (PyInt 1)]).
Proof.
  intros w.
  assert (Hfs : fs w !! "run.ckpt" = Some (blob [_encode (PyInt 1)]))
    by apply lookup_singleton_eq.
  repeat (split; [first [exact RefLib.lib_pickle_roundtrip
                        | exact RefLib.lib_gzip_roundtrip
                        | exact RefLib.lib_b64_injective
                        | exact Hfs
                        | reflexivity] | ]).
  exact (record_reruns_completed_item times10 100 true w "run.ckpt" (PyInt 10) tt
           RefLib.lib_pickle_roundtrip RefLib.lib_gzip_roundtrip
           RefLib.lib_b64_injective eq_refl eq_refl eq_refl Hfs eq_refl).
Defined.

(** C3 with [item * 10] on [[1, 2, None, 4]]: the third call raises. *)
Lemma callback_failure_propagates_witness :
  let w := fresh_world [PyInt 1; PyInt 2; PyNone; PyInt 4] in
  let e := TypeError "unsupported operand type(s) for *" in
  check_progress w = (Ok ([PyInt 1; PyInt 2] ++ PyNone :: [PyInt 4]), started w)
  /\ run_func times10 [PyInt 1; PyInt 2] (user (started w))
     = ([PyInt 10; PyInt 20], tt, None)
  /\ times10 PyNone tt = (Raise e, tt)
  /\ exists w' new,
       record times10 100 true w = (Raise e, w')
       /\ progress (self w')
          = progress (self (started w)) ++ (_encode <$> [PyInt 1; PyInt 2])
       /\ events w' = events (started w) ++ new
       /\ steps new
          = ([PyInt 1; PyInt 2] ≫= fun y => [EvCall y; EvAppend (_encode y)])
            ++ [EvCall PyNone]
       /\ appends new = _encode <$> [PyInt 1; PyInt 2].
Proof.
  intros w e.
  pose proof (check_progress_fresh_world [PyInt 1; PyInt 2; PyNone; PyInt 4])
    as Hcheck.
  split; [exact Hcheck | ]. split; [reflexivity | ]. split; [reflexivity | ].
  exact (callback_failure_propagates times10 100 true w (started w)
           [PyInt 1; PyInt 2] [PyInt 4] PyNone [PyInt 10; PyInt 20] tt tt e
           Hcheck eq_refl eq_refl).
Defined.


(** C5, amended, with [checkpoint_every = 1] and seven items. *)
Lemma flush_cadence_witness :
  let work := [PyInt 1; PyInt 2; PyInt 3; PyInt 4; PyInt 5; PyInt 6; PyInt 7] in
  let rs := [PyInt 10; PyInt 20; PyInt 30; PyInt 40; PyInt 50; PyInt 60; PyInt 70] in
  let w := fresh_world work in
  1 <= 1
  /\ check_progress w = (Ok work, started w)
  /\ work <> []
  /\ run_func times10 work (user (started w)) = (rs, tt, None)
  /\ exists w' new p counts,
       record times10 1 true w = (Ok (Some rs), w')
       /\ events w' = events (started w) ++ new
       /\ writes new
          = (fun c => (p, snapshot_at (progress (self (started w))) work c))
              <$> (counts ++ [Z.of_nat (length work)])
       /\ StronglySorted Z.lt counts
       /\ (forall c, c ∈ counts <->
                     1 <= c <= Z.of_nat (length work)
                     /\ exists t : nat, c = 1 * 2 ^ Z.of_nat t)
       /\ (4 * 1 <= Z.of_nat (length work) -> take 3 counts = [1; 2 * 1; 4 * 1]).
Proof.
  intros work rs w.
  pose proof (check_progress_fresh_world work) as Hcheck.
  assert (Hwork : work <> []) by discriminate.
  assert (HF : 1 <= 1) by lia.
  split; [exact HF | ]. split; [exact Hcheck | ]. split; [exact Hwork | ].
  split; [reflexivity | ].
  exact (flush_cadence times10 1 true w (started w) work rs tt HF Hcheck Hwork
           eq_refl).
Defined.


(** C5, as stated, fails. With [checkpoint_every = 1] and seven items the
    writes hold 1, 2 and 4 markers (and 7 at the end): the second write
    comes one item after the first, not two, and the third two items
    after the second, not four. *)
Lemma cadence_by_gaps_fails :
  let w := fresh_world [PyInt 1; PyInt 2; PyInt 3; PyInt 4; PyInt 5; PyInt 6; PyInt 7] in
  let sizes := write_sizes (events (snd (record times10 1 true w))) in
  sizes = [1; 2; 4; 7] /\ ~ cadence_by_gaps 1 sizes.
Proof.
  intros w sizes.
  assert (Hsizes : sizes = [1; 2; 4; 7]) by (vm_compute; reflexivity).
  split; [exact Hsizes | ]. rewrite Hsizes. intros (_ & H & _). discriminate H.
Qed.



(** ** Concrete runs beyond the claims *)

(** X1 on an object that already holds the marker of [2]. *)
Lemma work_set_is_filter_witness :
  let data := [PyInt 1; PyInt 2; PyInt 3] in
  let w := mkWorld (mkCheckpoint (InputIter data) None [_encode (PyInt 2)])
             ∅ 1700000000 false tt [] in
  input_data (self w) = InputIter data
  /\ check_progress w = (Ok [PyInt 1; PyInt 3], started w)
  /\ [PyInt 1; PyInt 3]
     = filter (fun x => _encode x ∉ progress (self (started w))) data
  /\ progress (self w) `prefix_of` progress (self (started w))
  /\ forall x, _encode x ∈ progress (self w) -> x ∉ [PyInt 1; PyInt 3].
Proof.
  intros data w.
  assert (Hcheck : check_progress w = (Ok [PyInt 1; PyInt 3], started w))
    by (vm_compute; reflexivity).
  split; [reflexivity | ]. split; [exact Hcheck | ].
  exact (work_set_is_filter w (started w) data [PyInt 1; PyInt 3] eq_refl Hcheck).
Defined.

(** X2 on an object built with no argument. *)
Lemma placeholder_left_behind_witness :
  let w := mkWorld (init InputNone None) ∅ 1700000000 false tt [] in
  truthy_path (ckpt_file (self w)) = None
  /\ exists r,
       check_progress w = (r, started w)
       /\ ckpt_file (self (started w)) = Some (fresh_path w)
       /\ fs (started w) !! fresh_path w = Some (default [] (fs w !! fresh_path w))
       /\ (input_data (self w) = InputNone -> r = Raise not_iterable).
Proof.
  intros w. split; [reflexivity | ].
  exact (placeholder_left_behind w eq_refl).
Defined.

(** X3 next to a file of notes. *)
Lemma record_touches_only_checkpoint_witness :
  let w := mkWorld (init (InputIter [PyInt 1; PyInt 2]) None)
             {["notes.txt" := [x01]]} 1700000000 false tt [] in
  "notes.txt" <> effective_path w
  /\ fs (snd (record times10 1 true w)) !! "notes.txt" = fs w !! "notes.txt".
Proof.
  intros w.
  assert (Hq : "notes.txt" <> effective_path w)
    by (intros H; vm_compute in H; discriminate H).
  split; [exact Hq | ].
  exact (record_touches_only_checkpoint times10 1 true w "notes.txt" Hq).
Defined.

(** X4 with [item * 10] on [[1, 2, 3, None]] and [checkpoint_every = 2]: three
    markers in memory, two in the file. *)
Lemma failure_keeps_last_flush_witness :
  let work := [PyInt 1; PyInt 2; PyInt 3; PyNone] in
  let rs := [PyInt 10; PyInt 20; PyInt 30] in
  let e := TypeError "unsupported operand type(s) for *" in
  let w := fresh_world work in
  check_progress w = (Ok work, started w)
  /\ run_func times10 work (user (started w)) = (rs, tt, Some e)
  /\ exists w',
       record times10 2 true w = (Raise e, w')
       /\ progress (self w')
          = snapshot_at (progress (self (started w))) work (Z.of_nat (length rs))
       /\ fs w' !! effective_path w
          = match last (flush_counts (length rs) 0 2) with
            | Some c => Some (blob (snapshot_at (progress (self (started w))) work c))
            | None => fs (started w) !! effective_path w
            end.
Proof.
  intros work rs e w.
  pose proof (check_progress_fresh_world work) as Hcheck.
  split; [exact Hcheck | ]. split; [reflexivity | ].
  exact (failure_keeps_last_flush times10 2 true w (started w) work rs tt e
           Hcheck eq_refl).
Defined.

(** X5 with [item * 10] on [[1, 2, 3]]. *)
Lemma completion_syncs_file_witness :
  let work := [PyInt 1; PyInt 2; PyInt 3] in
  let rs := [PyInt 10; PyInt 20; PyInt 30] in
  let w := fresh_world work in
  pickle_roundtrip RefLib.lib /\ gzip_roundtrip RefLib.lib
  /\ check_progress w = (Ok work, started w)
  /\ work <> []
  /\ run_func times10 work (user (started w)) = (rs, tt, None)
  /\ exists w',
       record times10 2 true w = (Ok (Some rs), w')
       /\ progress (self w') = progress (self (started w)) ++ (_encode <$> work)
       /\ fs w' !! effective_path w = Some (blob (progress (self w')))
       /\ fst (ckpt_io "read" w')
          = Ok (Some (PyList (PyBytes <$> progress (self w')))).
Proof.
  intros work rs w.
  pose proof (check_progress_fresh_world work) as Hcheck.
  assert (Hwork : work <> []) by discriminate.
  split; [exact RefLib.lib_pickle_roundtrip | ].
  split; [exact RefLib.lib_gzip_roundtrip | ].
  split; [exact Hcheck | ]. split; [exact Hwork | ]. split; [reflexivity | ].
  exact (completion_syncs_file times10 2 true w (started w) work rs tt
           RefLib.lib_pickle_roundtrip RefLib.lib_gzip_roundtrip Hcheck Hwork
           eq_refl).
Defined.

(** X6 with the callback [lambda item: [item]]. *)
Lemma record_maps_pure_callback_witness :
  let work := [PyInt 1; PyStr "a"] in
  let g := fun x => PyList [x] in
  let w := fresh_world work in
  check_progress w = (Ok work, started w)
  /\ work <> []
  /\ exists w',
       record (pure_callback g) 100 true w = (Ok (Some (g <$> work)), w')
       /\ user w' = user w.
Proof.
  intros work g w.
  pose proof (check_progress_fresh_world work) as Hcheck.
  assert (Hwork : work <> []) by discriminate.
  split; [exact Hcheck | ]. split; [exact Hwork | ].
  exact (record_maps_pure_callback g 100 true w (started w) work Hcheck Hwork).
Defined.

(** X7 with [checkpoint_every = 0]. *)
Lemma no_periodic_flush_witness :
  let work := [PyInt 1; PyInt 2] in
  let rs := [PyInt 10; PyInt 20] in
  let w := fresh_world work in
  (0 <= 0 \/ Z.of_nat (length work) < 0)
  /\ check_progress w = (Ok work, started w)
  /\ work <> []
  /\ run_func times10 work (user (started w)) = (rs, tt, None)
  /\ exists w' new,
       record times10 0 true w = (Ok (Some rs), w')
       /\ events w' = events (started w) ++ new
       /\ writes new
          = [(effective_path w, progress (self (started w)) ++ (_encode <$> work))].
Proof.
  intros work rs w.
  pose proof (check_progress_fresh_world work) as Hcheck.
  assert (Hwork : work <> []) by discriminate.
  assert (HF : 0 <= 0 \/ Z.of_nat (length work) < 0) by (left; lia).
  split; [exact HF | ]. split; [exact Hcheck | ]. split; [exact Hwork | ].
  split; [reflexivity | ].
  exact (no_periodic_flush times10 0 true w (started w) work rs tt HF Hcheck
           Hwork eq_refl).
Defined.

(** X8 with [checkpoint_every = 1] and seven items. *)
Lemma flush_count_logarithmic_witness :
  let work := [PyInt 1; PyInt 2; PyInt 3; PyInt 4; PyInt 5; PyInt 6; PyInt 7] in
  let rs := [PyInt 10; PyInt 20; PyInt 30; PyInt 40; PyInt 50; PyInt 60; PyInt 70] in
  let w := fresh_world work in
  1 <= 1
  /\ check_progress w = (Ok work, started w)
  /\ work <> []
  /\ run_func times10 work (user (started w)) = (rs, tt, None)
  /\ exists w' new (k : nat),
       record times10 1 true w = (Ok (Some rs), w')
       /\ events w' = events (started w) ++ new
       /\ length (writes new) = S k
       /\ (k = 0%nat \/ 1 * 2 ^ (Z.of_nat k - 1) <= Z.of_nat (length work)).
Proof.
  intros work rs w.
  pose proof (check_progress_fresh_world work) as Hcheck.
  assert (Hwork : work <> []) by discriminate.
  assert (HF : 1 <= 1) by lia.
  split; [exact HF | ]. split; [exact Hcheck | ]. split; [exact Hwork | ].
  split; [reflexivity | ].
  exact (flush_count_logarithmic times10 1 true w (started w) work rs tt HF
           Hcheck Hwork eq_refl).
Defined.

(** X9 with [item * 10] on [[1, 2]], twice. *)
Lemma second_record_is_noop_witness :
  let data := [PyInt 1; PyInt 2] in
  let rs := [PyInt 10; PyInt 20] in
  let w := fresh_world data in
  pickle_roundtrip RefLib.lib /\ gzip_roundtrip RefLib.lib
  /\ input_data (self w) = InputIter data
  /\ check_progress w = (Ok data, started w)
  /\ data <> []
  /\ run_func times10 data (user (started w)) = (rs, tt, None)
  /\ exists w' w'' new,
       record times10 100 true w = (Ok (Some rs), w')
       /\ record times10 1 false w' = (Ok None, w'')
       /\ events w'' = events w' ++ new
       /\ calls new = [] /\ writes new = []
       /\ progress (self w'')
          = progress (self w') ++ (_encode <$> (PyBytes <$> progress (self w'))).
Proof.
  intros data rs w.
  pose proof (check_progress_fresh_world data) as Hcheck.
  assert (Hdata : data <> []) by discriminate.
  split; [exact RefLib.lib_pickle_roundtrip | ].
  split; [exact RefLib.lib_gzip_roundtrip | ]. split; [reflexivity | ].
  split; [exact Hcheck | ]. split; [exact Hdata | ]. split; [reflexivity | ].
  exact (second_record_is_noop times10 times10 100 1 true false w (started w)
           data data rs tt RefLib.lib_pickle_roundtrip RefLib.lib_gzip_roundtrip
           eq_refl Hcheck Hdata eq_refl).
Defined.

(** X10 with a file that holds the list [[1, 3]]. *)
Lemma resume_excludes_loaded_values_witness :
  let entries := [PyInt 1; PyInt 3] in
  let data := [PyInt 1; PyStr "a"; PyInt 3] in
  let w := resuming_world data "run.ckpt"
             (gzip_compress (pickle_dumps (PyList entries))) in
  pickle_roundtrip RefLib.lib /\ gzip_roundtrip RefLib.lib /\ b64_injective RefLib.lib
  /\ truthy_path (ckpt_file (self w)) = Some "run.ckpt"
  /\ progress (self w) = []
  /\ Forall (fun e => scalar e = true) entries
  /\ fs w !! "run.ckpt" = Some (gzip_compress (pickle_dumps (PyList entries)))
  /\ input_data (self w) = InputIter data
  /\ exists w1,
       check_progress w = (Ok (filter (fun x => x ∉ entries) data), w1)
       /\ progress (self w1) = _encode <$> entries
       /\ last (events w1) = Some (resuming "run.ckpt" (length entries)).
Proof.
  intros entries data w.
  assert (Hfs : fs w !! "run.ckpt"
                = Some (gzip_compress (pickle_dumps (PyList entries))))
    by apply lookup_singleton_eq.
  assert (Hsc : Forall (fun e => scalar e = true) entries)
    by (repeat constructor).
  split; [exact RefLib.lib_pickle_roundtrip | ].
  split; [exact RefLib.lib_gzip_roundtrip | ].
  split; [exact RefLib.lib_b64_injective | ].
  split; [reflexivity | ]. split; [reflexivity | ]. split; [exact Hsc | ].
  split; [exact Hfs | ]. split; [reflexivity | ].
  exact (resume_excludes_loaded_values w "run.ckpt" entries data
           RefLib.lib_pickle_roundtrip RefLib.lib_gzip_roundtrip
           RefLib.lib_b64_injective eq_refl eq_refl Hsc Hfs eq_refl).
Defined.

(** X11 with a checkpoint file of two bytes that are not a gzip header. *)
Lemma corrupt_checkpoint_aborts_witness :
  let raw := [x6e; x6f] in
  let w := resuming_world [PyInt 1] "run.ckpt" raw in
  truthy_path (ckpt_file (self w)) = Some "run.ckpt"
  /\ fs w !! "run.ckpt" = Some raw
  /\ decode_error raw = Some BadGzipFile
  /\ record times10 100 true w = (Raise BadGzipFile, log w [EvRead "run.ckpt"]).
Proof.
  intros raw w.
  assert (Hfs : fs w !! "run.ckpt" = Some raw) by apply lookup_singleton_eq.
  split; [reflexivity | ]. split; [exact Hfs | ]. split; [reflexivity | ].
  exact (corrupt_checkpoint_aborts times10 100 true w "run.ckpt" raw BadGzipFile
           eq_refl Hfs eq_refl).
Defined.



(** X15 with the file [items.json], over the reference instance for files. *)
Lemma file_input_as_list_witness :
  let l := [PyInt 1; PyInt 2] in
  let raw := @pickle_dumps RefLib.lib (PyList l) in
  let w : world unit :=
    mkWorld (init (InputPath "items.json") None) {["items.json" := raw]}
      1700000000 false tt [] in
  input_data (self w) = InputPath "items.json"
  /\ fs w !! "items.json" = Some raw
  /\ (lower (@path_suffix RefFiles.lib "items.json") = ".json"
      /\ @json_load RefFiles.lib raw = Some (PyList l)
      \/ lower (@path_suffix RefFiles.lib "items.json") ∈ [".gz"; ".gzip"]
         /\ exists j, @gzip_decompress RefFiles.lib raw = Some j
                      /\ @json_load RefFiles.lib j = Some (PyList l))
  /\ py_iter (PyList l) = Some l
  /\ @check_progress RefFiles.lib unit w
     = (fst (@check_progress RefFiles.lib unit (with_input w (InputIter l))),
        with_input (snd (@check_progress RefFiles.lib unit (with_input w (InputIter l))))
          (InputPath "items.json")).
Proof.
  intros l raw w.
  assert (Hfs : fs w !! "items.json" = Some raw) by apply lookup_singleton_eq.
  assert (Hjson : lower (@path_suffix RefFiles.lib "items.json") = ".json"
                  /\ @json_load RefFiles.lib raw = Some (PyList l)
                  \/ lower (@path_suffix RefFiles.lib "items.json") ∈ [".gz"; ".gzip"]
                     /\ exists j, @gzip_decompress RefFiles.lib raw = Some j
                                  /\ @json_load RefFiles.lib j = Some (PyList l)).
  { left. split; [reflexivity | exact (RefLib.lib_pickle_roundtrip (PyList l))]. }
  split; [reflexivity | ]. split; [exact Hfs | ]. split; [exact Hjson | ].
  split; [reflexivity | ].
  exact (@file_input_as_list RefFiles.lib unit w "items.json" raw (PyList l) l
           eq_refl Hfs Hjson eq_refl).
Defined.
